(** * TutorQuest backend: question engine, structured-output recovery and
      the video pipeline

    A shallow embedding of [services/chat.py], [services/questions.py] and
    [services/video.py].  Python values that flow through the services
    untyped (parsed JSON, rows of the question table) are kept as a small
    universe [value]; exceptions are explicit outcomes; every call into a
    collaborator (completion service, sandbox, object storage, identifier
    and clock sources) is recorded in the [log] of the [world] the services
    run in. *)

From Stdlib Require Import ZArith NArith List String Ascii Bool Lia.
From Stdlib Require Import DecimalString.
From Stdlib.Strings Require Import Byte.
Import ListNotations.

Set Warnings "-register-all".

Local Open Scope string_scope.
Local Open Scope list_scope.
Local Open Scope nat_scope.

(** ** Python values and exceptions *)

Inductive value : Type :=
| VNone
| VBool (b : bool)
| VInt (z : Z)
| VFloat (mantissa exponent : Z)
| VStr (s : string)
| VList (items : list value)
| VDict (entries : list (string * value)).

(** Every class below derives from Python's [Exception]. *)
Inductive exn : Type :=
| JSONDecodeError (msg : string)
| KeyError (key : string)
| TypeError (msg : string)
| AttributeError (msg : string)
| ValueError (msg : string)
| BinasciiError (msg : string)
| APIError (msg : string)
| Exception (msg : string).

Inductive outcome (A : Type) : Type :=
| Ret (a : A)
| Raise (e : exn).
Arguments Ret {A} a.
Arguments Raise {A} e.

(** [str(e)]: the message, except for [KeyError], which shows the repr of
    its key. *)
Definition str_of_exn (e : exn) : string :=
  match e with
  | KeyError k => ("'" ++ k ++ "'")%string
  | JSONDecodeError m | TypeError m | AttributeError m | ValueError m
  | BinasciiError m | APIError m | Exception m => m
  end.

Definition is_JSONDecodeError (e : exn) : bool :=
  match e with JSONDecodeError _ => true | _ => false end.

(** Truth value of a Python object, as [if x:] and [not x] compute it. *)
Definition truthy (v : value) : bool :=
  match v with
  | VNone => false
  | VBool b => b
  | VInt z => negb (z =? 0)%Z
  | VFloat m _ => negb (m =? 0)%Z
  | VStr s => negb (String.eqb s EmptyString)
  | VList l => match l with [] => false | _ => true end
  | VDict d => match d with [] => false | _ => true end
  end.

Fixpoint assoc (k : string) (d : list (string * value)) : option value :=
  match d with
  | [] => None
  | (k', v) :: rest => if String.eqb k' k then Some v else assoc k rest
  end.

(** [obj[key]] *)
Definition subscript (obj : value) (key : string) : outcome value :=
  match obj with
  | VDict d => match assoc key d with
               | Some v => Ret v
               | None => Raise (KeyError key)
               end
  | _ => Raise (TypeError "object is not subscriptable with a str key")
  end.

(** [obj.get(key, default)] *)
Definition dict_get (obj : value) (key : string) (default : value)
  : outcome value :=
  match obj with
  | VDict d => match assoc key d with
               | Some v => Ret v
               | None => Ret default
               end
  | _ => Raise (AttributeError "object has no attribute 'get'")
  end.

(** ** Text operations of [str] *)

Definition nl : ascii := ascii_of_nat 10.
Definition dq : ascii := ascii_of_nat 34.
Definition newline : string := String nl EmptyString.

(** [str.isspace] on the code points below 256. *)
Definition is_space (c : ascii) : bool :=
  let n := nat_of_ascii c in
  ((9 <=? n) && (n <=? 13)) || ((28 <=? n) && (n <=? 32))
  || (n =? 133) || (n =? 160).

Fixpoint lstrip_chars (cs : list ascii) : list ascii :=
  match cs with
  | [] => []
  | c :: rest => if is_space c then lstrip_chars rest else cs
  end.

Definition rstrip_chars (cs : list ascii) : list ascii :=
  rev (lstrip_chars (rev cs)).

Definition strip_chars (cs : list ascii) : list ascii :=
  rstrip_chars (lstrip_chars cs).

(** [s.strip()] *)
Definition strip (s : string) : string :=
  string_of_list_ascii (strip_chars (list_ascii_of_string s)).

(** [s.startswith(p)] *)
Definition startswith (p s : string) : bool := String.prefix p s.

(** [s.endswith(p)] *)
Definition endswith (p s : string) : bool :=
  String.prefix (string_of_list_ascii (rev (list_ascii_of_string p)))
                (string_of_list_ascii (rev (list_ascii_of_string s))).

(** [s[n:]] *)
Definition drop (n : nat) (s : string) : string :=
  String.substring n (String.length s - n) s.

(** [s[:n]] for [n >= 0] *)
Definition take (n : nat) (s : string) : string :=
  String.substring 0 (Nat.min n (String.length s)) s.

(** [s[:-n]] for [n > 0] *)
Definition drop_last (n : nat) (s : string) : string :=
  String.substring 0 (String.length s - n) s.

(** [s[a:b]] for [0 <= a] *)
Definition slice (a b : nat) (s : string) : string :=
  String.substring a (Nat.min b (String.length s) - a) s.

(** [s.split('\n')] *)
Fixpoint split_lines_aux (cur : list ascii) (cs : list ascii) : list string :=
  match cs with
  | [] => [string_of_list_ascii (rev cur)]
  | c :: rest =>
      if Ascii.eqb c nl
      then string_of_list_ascii (rev cur) :: split_lines_aux [] rest
      else split_lines_aux (c :: cur) rest
  end.

Definition split_lines (s : string) : list string :=
  split_lines_aux [] (list_ascii_of_string s).

(** ['\n'.join(ls)] *)
Definition join_lines (ls : list string) : string := String.concat newline ls.

(** [s.find(c)], [None] standing for -1 *)
Fixpoint find_char_from (c : ascii) (cs : list ascii) (i : nat) : option nat :=
  match cs with
  | [] => None
  | c' :: rest => if Ascii.eqb c' c then Some i else find_char_from c rest (S i)
  end.

Definition find_char (c : ascii) (s : string) : option nat :=
  find_char_from c (list_ascii_of_string s) 0.

Definition str_filter (p : ascii -> bool) (s : string) : string :=
  string_of_list_ascii (filter p (list_ascii_of_string s)).

(** Concrete JSON texts are written with apostrophes where JSON has
    double quotes; [json_text] puts the double quotes in. *)
Definition json_text (s : string) : string :=
  string_of_list_ascii
    (map (fun c => if Ascii.eqb c "'" then dq else c) (list_ascii_of_string s)).

(** The fence stripping every structured call site starts with
    (chat.py 34-41, 89-96, 141-148; video.py 36-44). *)
Definition strip_fences (raw : string) : string :=
  let text := strip raw in
  let text := if startswith "```json" text then drop 7 text else text in
  let text := if startswith "```" text then drop 3 text else text in
  let text := if endswith "```" text then drop_last 3 text else text in
  strip text.

(** The fence stripping of the code-generation site (video.py 57-64). *)
Definition strip_code_fences (raw : string) : string :=
  let code := strip raw in
  let code := if startswith "```python" code then drop 9 code else code in
  let code := if startswith "```" code then drop 3 code else code in
  let code := if endswith "```" code then drop_last 3 code else code in
  strip code.

(** ** Base64, as [base64.b64encode] / [base64.b64decode] compute it *)

Definition b64_alphabet : string :=
  "ABCDEFGHIJKLMNOPQRSTUVWXYZabcdefghijklmnopqrstuvwxyz0123456789+/".

Definition pad_char : ascii := "="%char.

Definition b64_char (n : N) : ascii :=
  match String.get (N.to_nat n) b64_alphabet with
  | Some c => c
  | None => pad_char
  end.

(** The decoder's lookup table: the six-bit value of an alphabet
    character, nothing for any other character. *)
Definition table_a2b_base64 (c : ascii) : option N :=
  option_map N.of_nat (find_char c b64_alphabet).

Definition byte_of_N (n : N) : byte :=
  match Byte.of_N (N.land n 255) with
  | Some b => b
  | None => x00
  end.

Fixpoint b64encode_chars (bs : list byte) : list ascii :=
  match bs with
  | [] => []
  | [a] =>
      let x := Byte.to_N a in
      [b64_char (N.shiftr x 2); b64_char (N.shiftl (N.land x 3) 4);
       pad_char; pad_char]
  | [a; b] =>
      let x := Byte.to_N a in
      let y := Byte.to_N b in
      [b64_char (N.shiftr x 2);
       b64_char (N.lor (N.shiftl (N.land x 3) 4) (N.shiftr y 4));
       b64_char (N.shiftl (N.land y 15) 2); pad_char]
  | a :: b :: c :: rest =>
      let x := Byte.to_N a in
      let y := Byte.to_N b in
      let z := Byte.to_N c in
      b64_char (N.shiftr x 2)
      :: b64_char (N.lor (N.shiftl (N.land x 3) 4) (N.shiftr y 4))
      :: b64_char (N.lor (N.shiftl (N.land y 15) 2) (N.shiftr z 6))
      :: b64_char (N.land z 63)
      :: b64encode_chars rest
  end.

Definition b64encode (bs : list byte) : string :=
  string_of_list_ascii (b64encode_chars bs).

(** [%zd] of a count. *)
Definition decimal (n : nat) : string := NilZero.string_of_uint (Nat.to_uint n).

(** [binascii.a2b_base64] in its default, non-strict mode: characters
    outside the alphabet are skipped, a complete pad sequence ends the
    input, and a group left open at the end of the input is an error.  The
    message for a single dangling character carries the number of data
    characters read, which the decoder computes from the bytes written:
    [(bin_data - bin_data_start) / 3 * 4 + 1]. *)
Fixpoint a2b_base64 (cs : list ascii) (quad_pos : nat) (leftchar : N)
         (pads : nat) (out : list byte) : outcome (list byte) :=
  match cs with
  | [] =>
      if quad_pos =? 0 then Ret (rev out)
      else if quad_pos =? 1
      then Raise (BinasciiError
        ("Invalid base64-encoded string: number of data characters ("
         ++ decimal (List.length out / 3 * 4 + 1)
         ++ ") cannot be 1 more than a multiple of 4")%string)
      else Raise (BinasciiError "Incorrect padding")
  | c :: rest =>
      if Ascii.eqb c pad_char then
        if (2 <=? quad_pos) && (4 <=? quad_pos + S pads)
        then Ret (rev out)
        else a2b_base64 rest quad_pos leftchar
                        (if 2 <=? quad_pos then S pads else pads) out
      else
        match table_a2b_base64 c with
        | None => a2b_base64 rest quad_pos leftchar pads out
        | Some v =>
            match quad_pos with
            | 0 => a2b_base64 rest 1 v 0 out
            | 1 => a2b_base64 rest 2 (N.land v 15) 0
                     (byte_of_N (N.lor (N.shiftl leftchar 2) (N.shiftr v 4))
                      :: out)
            | 2 => a2b_base64 rest 3 (N.land v 3) 0
                     (byte_of_N (N.lor (N.shiftl leftchar 4) (N.shiftr v 2))
                      :: out)
            | _ => a2b_base64 rest 0 0 0
                     (byte_of_N (N.lor (N.shiftl leftchar 6) v) :: out)
            end
        end
  end.

Definition is_ascii_char (c : ascii) : bool := nat_of_ascii c <? 128.

(** [base64.b64decode(s)] for a [str] argument: the string must be pure
    ASCII, then the non-strict decoder runs. *)
Definition b64decode (s : string) : outcome (list byte) :=
  let cs := list_ascii_of_string s in
  if forallb is_ascii_char cs
  then a2b_base64 cs 0 0 0 []
  else Raise (ValueError "string argument should contain only ASCII characters").

(** [str.isalnum] on the code points below 256. *)
Definition is_alnum (c : ascii) : bool :=
  let n := nat_of_ascii c in
  ((48 <=? n) && (n <=? 57)) || ((65 <=? n) && (n <=? 90))
  || ((97 <=? n) && (n <=? 122))
  || (n =? 170) || (n =? 178) || (n =? 179) || (n =? 181) || (n =? 185)
  || (n =? 186) || ((188 <=? n) && (n <=? 190))
  || ((192 <=? n) && (n <=? 214)) || ((216 <=? n) && (n <=? 246))
  || ((248 <=? n) && (n <=? 255)).

(** [c.isalnum() or c in '+/='] (video.py 98) *)
Definition is_b64_text_char (c : ascii) : bool :=
  is_alnum c || Ascii.eqb c "+" || Ascii.eqb c "/" || Ascii.eqb c "=".

(** What the orchestrator does with the text the sandbox sends back
    (video.py 97-100). *)
Definition decode_artifact (result : string) : outcome (list byte) :=
  let video_base64 := strip result in
  let video_base64_clean := str_filter is_b64_text_char video_base64 in
  b64decode video_base64_clean.

(** The sandbox side of the transport, [cat f | base64 | tr -d '\n']:
    [base64] prints the encoding in lines of 76 characters, each ended by
    a newline, and [tr] deletes the newlines. *)
Fixpoint wrap_lines (width col : nat) (cs : list ascii) : list ascii :=
  match cs with
  | [] => if col =? 0 then [] else [nl]
  | c :: rest =>
      if col =? width
      then nl :: c :: wrap_lines width 1 rest
      else c :: wrap_lines width (S col) rest
  end.

Definition base64_tool (bs : list byte) : list ascii :=
  wrap_lines 76 0 (b64encode_chars bs).

Definition tr_d_newline (cs : list ascii) : list ascii :=
  filter (fun c => negb (Ascii.eqb c nl)) cs.

Definition textSafeEncode (bs : list byte) : string :=
  string_of_list_ascii (tr_d_newline (base64_tool bs)).

(** [s.encode('ascii', errors='ignore').decode('ascii')] *)
Definition ascii_projection (s : string) : string := str_filter is_ascii_char s.

Definition bytes_of_str (s : string) : list byte := list_byte_of_string s.

(** ** The world: tables, bucket and the log of collaborator calls *)

Inductive event : Type :=
| EUuid4 (id : string)
| ECompletion (model : string) (max_tokens : nat) (content : string)
| ESandboxCreate (snapshot : string)
| ESandboxExec (command : string)
| ESandboxDelete
| EStorageUpload (path : string) (data : list byte)
| EStoragePublicUrl (path : string)
| EStorageList
| EStorageRemove (names : list string).

Record session_row : Type := {
  s_id : string;
  s_user_id : string
}.

Record question_row : Type := {
  q_id : string;
  q_session_id : string;
  q_user_id : string;
  q_question : value;
  q_topic : value;
  q_difficulty : Z;
  q_attempts : Z;
  q_created_at : Z
}.

(** An object of the [videos] bucket; [v_created_at] is the instant its
    ISO timestamp denotes, in microseconds since the epoch. *)
Record stored_video : Type := {
  v_name : string;
  v_created_at : Z
}.

Record world : Type := {
  log : list event;
  sessions : list session_row;
  questions : list question_row;
  videos : list stored_video
}.

Definition record (e : event) (w : world) : world :=
  {| log := log w ++ [e]; sessions := sessions w;
     questions := questions w; videos := videos w |}.

Definition with_questions (qs : list question_row) (w : world) : world :=
  {| log := log w; sessions := sessions w; questions := qs;
     videos := videos w |}.

Definition with_videos (vs : list stored_video) (w : world) : world :=
  {| log := log w; sessions := sessions w; questions := questions w;
     videos := vs |}.

(** Services are state transformers that return or raise; the effects of
    a call that raises stay in the world. *)
Definition M (A : Type) : Type := world -> outcome A * world.

Definition ret {A} (a : A) : M A := fun w => (Ret a, w).
Definition raise {A} (e : exn) : M A := fun w => (Raise e, w).
Definition lift {A} (o : outcome A) : M A := fun w => (o, w).

Definition bind {A B} (m : M A) (k : A -> M B) : M B :=
  fun w =>
    match m w with
    | (Ret a, w') => k a w'
    | (Raise e, w') => (Raise e, w')
    end.

(** [try: m  except Exception as e: h e] *)
Definition try_except {A} (m : M A) (h : exn -> M A) : M A :=
  fun w =>
    match m w with
    | (Ret a, w') => (Ret a, w')
    | (Raise e, w') => h e w'
    end.

Declare Scope service_scope.
Delimit Scope service_scope with service.
Notation "x <- m ;; k" := (bind m (fun x => k))
  (at level 61, m at next level, right associativity) : service_scope.
Notation "m ;; k" := (bind m (fun _ => k))
  (at level 61, right associativity) : service_scope.
Local Open Scope service_scope.

(** The collaborators.  Each answer may depend on everything that has
    happened so far, which the log holds. *)
Record collaborators : Type := {
  uuid4 : list event -> string;
  utcnow : list event -> Z;
  messages_create : list event -> string -> nat -> string -> outcome string;
  sandbox_create : list event -> string -> outcome unit;
  sandbox_exec : list event -> string -> outcome string;
  sandbox_delete : list event -> outcome unit;
  storage_upload : list event -> string -> list byte -> outcome unit;
  storage_public_url : string -> string
}.

Definition count_deletes (l : list event) : nat :=
  List.length (filter (fun e => match e with ESandboxDelete => true | _ => false end) l).

Definition count_removes (l : list event) : nat :=
  List.length (filter (fun e => match e with EStorageRemove _ => true | _ => false end) l).

Definition one_day_us : Z := 86400000000.

Definition haiku : string := "claude-haiku-4-5-20251001".
Definition sonnet : string := "claude-sonnet-4-5-20250929".
Definition default_hint : string :=
  "Try breaking down the problem into smaller steps.".

Record question_result : Type := {
  qr_question_id : string;
  qr_question : value;
  qr_topic : value;
  qr_difficulty : Z
}.

Record answer_result : Type := {
  ar_correct : value;
  ar_attempts : Z;
  ar_feedback : value;
  ar_offer_video : bool;
  ar_question : value;
  ar_topic : value
}.

Record video_result : Type := {
  video_id : string;
  status : string;
  video_url : option string;
  error : option string
}.

Record cleanup_result : Type := {
  deleted : nat;
  files : list string
}.

Section Services.

(** [json.loads], [str()] on a value that is not already a [str], and
    the rendering of the prompt templates (the templates are not part of
    the sources at hand). *)
Variable json_loads : string -> outcome value.
Variable py_str : value -> string.
Variable render : string -> list (string * value) -> string.
Variable C : collaborators.

(** A value inside an f-string. *)
Definition format_value (v : value) : string :=
  match v with
  | VStr s => s
  | _ => py_str v
  end.

(** *** Collaborator calls *)

Definition new_uuid : M string :=
  fun w => let id := uuid4 C (log w) in (Ret id, record (EUuid4 id) w).

Definition completion (model : string) (max_tokens : nat) (content : string)
  : M string :=
  fun w => (messages_create C (log w) model max_tokens content,
            record (ECompletion model max_tokens content) w).

Definition daytona_create (snapshot : string) : M unit :=
  fun w => (sandbox_create C (log w) snapshot,
            record (ESandboxCreate snapshot) w).

Definition process_exec (command : string) : M string :=
  fun w => (sandbox_exec C (log w) command, record (ESandboxExec command) w).

Definition sandbox_delete_call : M unit :=
  fun w => (sandbox_delete C (log w), record ESandboxDelete w).

(** [upload] with [x-upsert: true]: on success the object replaces any
    object of the same name. *)
Definition storage_upload_call (path : string) (data : list byte) : M unit :=
  fun w =>
    let w1 := record (EStorageUpload path data) w in
    match storage_upload C (log w) path data with
    | Ret tt =>
        (Ret tt,
         with_videos
           (filter (fun v => negb (String.eqb (v_name v) path)) (videos w1)
            ++ [{| v_name := path; v_created_at := utcnow C (log w) |}]) w1)
    | Raise e => (Raise e, w1)
    end.

Definition get_public_url (path : string) : M string :=
  fun w => (Ret (storage_public_url C path), record (EStoragePublicUrl path) w).

Definition storage_list : M (list stored_video) :=
  fun w => (Ret (videos w), record EStorageList w).

Definition storage_remove (names : list string) : M unit :=
  fun w =>
    let w1 := record (EStorageRemove names) w in
    (Ret tt,
     with_videos
       (filter (fun v => negb (existsb (String.eqb (v_name v)) names))
               (videos w1)) w1).

(** [.select(..).eq("id", id).single().execute()] *)
Definition single {A} (rows : list A) : M A :=
  match rows with
  | [r] => ret r
  | _ => raise (APIError "JSON object requested, multiple (or no) rows returned")
  end.

Definition select_session (session_id : string) : M session_row :=
  fun w => single (filter (fun s => String.eqb (s_id s) session_id) (sessions w)) w.

Definition select_question (question_id : string) : M question_row :=
  fun w => single (filter (fun q => String.eqb (q_id q) question_id) (questions w)) w.

Definition select_session_questions (session_id : string)
  : M (list question_row) :=
  fun w => (Ret (filter (fun q => String.eqb (q_session_id q) session_id)
                        (questions w)), w).

Definition insert_question (row : question_row) : M unit :=
  fun w => (Ret tt, with_questions (questions w ++ [row]) w).

Definition set_attempts (n : Z) (q : question_row) : question_row :=
  {| q_id := q_id q; q_session_id := q_session_id q;
     q_user_id := q_user_id q; q_question := q_question q;
     q_topic := q_topic q; q_difficulty := q_difficulty q;
     q_attempts := n; q_created_at := q_created_at q |}.

Definition update_attempts (question_id : string) (n : Z) : M unit :=
  fun w =>
    (Ret tt,
     with_questions
       (map (fun q => if String.eqb (q_id q) question_id
                      then set_attempts n q else q) (questions w)) w).


Definition now : M Z := fun w => (Ret (utcnow C (log w)), w).

(** *** services/chat.py *)

(** [for i in idxs: try: return f(i)  except: continue] *)
Fixpoint first_success {A} (f : nat -> outcome A) (idxs : list nat) : option A :=
  match idxs with
  | [] => None
  | i :: rest =>
      match f i with
      | Ret v => Some v
      | Raise _ => first_success f rest
      end
  end.

(** The scan of chat.py 61-71 over [i in range(start_idx, len(text))]. *)
Fixpoint brace_scan (text : string) (start_idx : nat) (idxs : list nat)
         (brace_count : Z) : option value :=
  match idxs with
  | [] => None
  | i :: rest =>
      match String.get i text with
      | None => brace_scan text start_idx rest brace_count
      | Some c =>
          if Ascii.eqb c "{"
          then brace_scan text start_idx rest (brace_count + 1)
          else if Ascii.eqb c "}"
          then
            let brace_count := (brace_count - 1)%Z in
            if (brace_count =? 0)%Z
            then match json_loads (slice start_idx (i + 1) text) with
                 | Ret v => Some v
                 | Raise _ => brace_scan text start_idx rest brace_count
                 end
            else brace_scan text start_idx rest brace_count
          else brace_scan text start_idx rest brace_count
      end
  end.

Definition parse_line_suffixes (text : string) : option value :=
  let lines := split_lines text in
  first_success (fun i => json_loads (join_lines (skipn i lines)))
                (seq 0 (List.length lines)).

Definition parse_braces (text : string) : option value :=
  match find_char "{" text with
  | Some start_idx =>
      brace_scan text start_idx
                 (seq start_idx (String.length text - start_idx)) 0%Z
  | None => None
  end.

(** The recovery block of [generate_next_question] and [validate_answer]
    (chat.py 44-72 and 99-127), applied to the fence-stripped text. *)
Definition parse_with_recovery (text : string) : outcome value :=
  match json_loads text with
  | Ret v => Ret v
  | Raise e =>
      if is_JSONDecodeError e
      then match parse_line_suffixes text with
           | Some v => Ret v
           | None =>
               match parse_braces text with
               | Some v => Ret v
               | None => Raise e
               end
           end
      else Raise e
  end.

Definition generate_next_question (topic : string) (difficulty : Z)
           (previous_questions : list value) : M value :=
  let prompt :=
    render "generate_question.j2"
           [("difficulty", VInt difficulty);
            ("previous_questions", VList (firstn 5 previous_questions))] in
  text <- completion haiku 1024
            ("You are a mathematics teaching assistant. Generate educational questions."
             ++ newline ++ newline ++ prompt)%string ;;
  lift (parse_with_recovery (strip_fences text)).

Definition validate_answer (question : value) (user_answer : string) : M value :=
  let prompt :=
    render "validate_answer.j2"
           [("question", question); ("user_answer", VStr user_answer)] in
  text <- completion haiku 1024
            ("You are a mathematics teaching assistant. Evaluate answers fairly and provide constructive feedback."
             ++ newline ++ newline ++ prompt)%string ;;
  lift (parse_with_recovery (strip_fences text)).

(** The parsing of [generate_hint] (chat.py 150-154) on the fence-stripped
    text: any failure gives the default hint. *)
Definition parse_hint (text : string) : value :=
  match json_loads text with
  | Ret result =>
      match dict_get result "hint" (VStr default_hint) with
      | Ret v => v
      | Raise _ => VStr default_hint
      end
  | Raise _ => VStr default_hint
  end.

Definition generate_hint (question : value) (user_answer : string) : M value :=
  let prompt :=
    render "generate_hint.j2"
           [("question", question); ("user_answer", VStr user_answer)] in
  text <- completion haiku 512 prompt ;;
  ret (parse_hint (strip_fences text)).

(** *** services/questions.py *)

Definition derive_difficulty (question_count : nat) (difficulty : option Z) : Z :=
  match difficulty with
  | None => Z.min (1 + Z.of_nat question_count / 3) 10
  | Some d => Z.max 1 (Z.min 10 d)
  end.

Definition get_next_question (session_id : string) (difficulty : option Z)
  : M question_result :=
  session <- select_session session_id ;;
  let user_id := s_user_id session in
  all_questions <- select_session_questions session_id ;;
  let difficulty := derive_difficulty (List.length all_questions) difficulty in
  let topic := "Long Division" in
  let previous_questions := map q_question all_questions in
  question_data <- generate_next_question topic difficulty previous_questions ;;
  question_id <- new_uuid ;;
  question <- lift (subscript question_data "question") ;;
  row_topic <- lift (dict_get question_data "topic" (VStr topic)) ;;
  created_at <- now ;;
  insert_question
    {| q_id := question_id; q_session_id := session_id; q_user_id := user_id;
       q_question := question; q_topic := row_topic;
       q_difficulty := difficulty; q_attempts := 0;
       q_created_at := created_at |} ;;
  question' <- lift (subscript question_data "question") ;;
  topic' <- lift (dict_get question_data "topic" (VStr topic)) ;;
  ret {| qr_question_id := question_id; qr_question := question';
         qr_topic := topic'; qr_difficulty := difficulty |}.

(** The feedback selection of [validate_user_answer] (questions.py 63-71). *)
Definition choose_feedback (question : value) (answer : string)
           (validation : value) (new_attempts : Z) : M value :=
  correct <- lift (subscript validation "correct") ;;
  if truthy correct
  then lift (subscript validation "feedback")
  else if (new_attempts =? 1)%Z
  then ret (VStr "Incorrect. Please try again.")
  else if (new_attempts =? 2)%Z
  then (hint <- generate_hint question answer ;;
        ret (VStr ("Not quite right. Here's a hint: " ++ format_value hint)%string))
  else (feedback <- lift (subscript validation "feedback") ;;
        ret (VStr ("That's not correct. " ++ format_value feedback)%string)).

Definition validate_user_answer (session_id question_id answer : string)
  : M answer_result :=
  question_data <- select_question question_id ;;
  validation <- validate_answer (q_question question_data) answer ;;
  let new_attempts := (q_attempts question_data + 1)%Z in
  update_attempts question_id new_attempts ;;
  feedback <- choose_feedback (q_question question_data) answer
                              validation new_attempts ;;
  correct <- lift (subscript validation "correct") ;;
  correct' <- lift (subscript validation "correct") ;;
  ret {| ar_correct := correct; ar_attempts := new_attempts;
         ar_feedback := feedback;
         ar_offer_video := negb (truthy correct') && (3 <=? new_attempts)%Z;
         ar_question := q_question question_data;
         ar_topic := q_topic question_data |}.

(** *** services/video.py *)

Definition generate_explanation (question : value) : M value :=
  let prompt := render "explain_solution.j2" [("question", question)] in
  text <- completion haiku 1024 prompt ;;
  result <- lift (json_loads (strip_fences text)) ;;
  lift (subscript result "explanation").

Definition generate_manim_code (question explanation : value) : M string :=
  let prompt :=
    render "generate_manim.j2"
           [("question", question); ("explanation", explanation)] in
  code <- completion sonnet 2048 prompt ;;
  ret (strip_code_fences code).

Definition get_or_generate_code (question : value) : M string :=
  explanation <- generate_explanation question ;;
  generate_manim_code question explanation.

Definition write_command (code_b64 : string) : string :=
  ("echo '" ++ code_b64 ++ "' | base64 -d > scene.py")%string.
Definition verify_command : string := "wc -l scene.py && head -5 scene.py".
Definition render_command : string :=
  "python3 -m manim -ql scene.py ExplanationScene 2>&1".
Definition find_command : string :=
  "find media -name 'ExplanationScene.mp4' -type f 2>/dev/null".
Definition cat_command (video_path : string) : string :=
  ("cat " ++ video_path ++ " | base64 | tr -d '\n'")%string.

Definition execute_manim_code (manim_code : string) : M (list byte * string) :=
  daytona_create "manim-voiceover-v4" ;;
  let code_safe := ascii_projection manim_code in
  let code_b64 := b64encode (bytes_of_str code_safe) in
  write_result <- process_exec (write_command code_b64) ;;
  verify_result <- process_exec verify_command ;;
  render_result <- process_exec render_command ;;
  video_path_result <- process_exec find_command ;;
  let video_path := strip video_path_result in
  if String.eqb video_path EmptyString
  then raise (Exception ("Video not found. Code verify: "
                         ++ take 200 verify_result ++ ". Render: "
                         ++ take 1000 render_result)%string)
  else (video_content_result <- process_exec (cat_command video_path) ;;
        video_bytes <- lift (decode_artifact video_content_result) ;;
        sandbox_delete_call ;;
        ret (video_bytes, render_result)).

Definition upload_to_supabase (video_bytes : list byte) (video_id : string)
  : M string :=
  let file_path := (video_id ++ ".mp4")%string in
  storage_upload_call file_path video_bytes ;;
  public_url <- get_public_url file_path ;;
  ret public_url.

Definition cleanup_old_videos : M cleanup_result :=
  t <- now ;;
  let cutoff_time := (t - one_day_us)%Z in
  listed <- storage_list ;;
  let old_videos :=
    map v_name (filter (fun video => (v_created_at video <? cutoff_time)%Z) listed) in
  (match old_videos with
   | [] => ret tt
   | _ :: _ => storage_remove old_videos
   end) ;;
  ret {| deleted := List.length old_videos; files := old_videos |}.

Definition generate_video (question : value) : M video_result :=
  id <- new_uuid ;;
  try_except
    (manim_code <- get_or_generate_code question ;;
     artifact <- execute_manim_code manim_code ;;
     url <- upload_to_supabase (fst artifact) id ;;
     ret {| video_id := id; status := "completed";
            video_url := Some url; error := None |})
    (fun e =>
       ret {| video_id := id; status := "failed";
              video_url := None; error := Some (str_of_exn e) |}).

End Services.

(** ** A reference JSON decoder for concrete runs

    The services take [json.loads] as given.  To run them on concrete
    texts, [json_decode] decodes the fragment of JSON without string
    escapes, fractions and exponents, and on that fragment returns what
    [json.loads] returns (a repeated key keeps its first position and its
    last value, as in a Python [dict]); any other text is rejected.  The
    message of the error is not modelled beyond its kind. *)

Definition is_json_ws (c : ascii) : bool :=
  let n := nat_of_ascii c in
  (n =? 32) || (n =? 9) || (n =? 10) || (n =? 13).

Definition is_digit (c : ascii) : bool :=
  let n := nat_of_ascii c in (48 <=? n) && (n <=? 57).

Fixpoint skip_ws (cs : list ascii) : list ascii :=
  match cs with
  | c :: rest => if is_json_ws c then skip_ws rest else cs
  | [] => []
  end.

Fixpoint dict_set (k : string) (v : value) (d : list (string * value))
  : list (string * value) :=
  match d with
  | [] => [(k, v)]
  | (k', v') :: rest =>
      if String.eqb k' k then (k', v) :: rest else (k', v') :: dict_set k v rest
  end.

(** The characters of a string literal after its opening quote. *)
Fixpoint scan_string (cs : list ascii) (acc : list ascii)
  : option (string * list ascii) :=
  match cs with
  | [] => None
  | c :: rest =>
      if Ascii.eqb c dq then Some (string_of_list_ascii (rev acc), rest)
      else if Ascii.eqb c "\" then None
      else if nat_of_ascii c <? 32 then None
      else scan_string rest (c :: acc)
  end.

Fixpoint scan_digits (cs : list ascii) (acc : Z) : Z * list ascii :=
  match cs with
  | c :: rest =>
      if is_digit c
      then scan_digits rest (10 * acc + Z.of_nat (nat_of_ascii c - 48))%Z
      else (acc, cs)
  | [] => (acc, [])
  end.

Definition starts_fraction (cs : list ascii) : bool :=
  match cs with
  | c :: _ => Ascii.eqb c "." || Ascii.eqb c "e" || Ascii.eqb c "E"
  | [] => false
  end.

(** An integer literal: an optional sign, then [0] or a digit sequence
    that does not start with [0]. *)
Definition scan_int (cs : list ascii) : option (value * list ascii) :=
  let (neg, body) :=
    match cs with
    | c :: rest => if Ascii.eqb c "-" then (true, rest) else (false, cs)
    | [] => (false, cs)
    end in
  match body with
  | d :: rest =>
      if Ascii.eqb d "0"
      then if starts_fraction rest then None else Some (VInt 0, rest)
      else if is_digit d
      then let (n, rest') := scan_digits body 0%Z in
           if starts_fraction rest' then None
           else Some (VInt (if neg then - n else n)%Z, rest')
      else None
  | [] => None
  end.

Fixpoint strip_prefix (p cs : list ascii) : option (list ascii) :=
  match p, cs with
  | [], _ => Some cs
  | a :: p', c :: cs' => if Ascii.eqb a c then strip_prefix p' cs' else None
  | _ :: _, [] => None
  end.

Fixpoint scan_value (fuel : nat) (cs : list ascii) {struct fuel}
  : option (value * list ascii) :=
  match fuel with
  | 0 => None
  | S fuel' =>
      match cs with
      | [] => None
      | c :: rest =>
          if Ascii.eqb c dq then
            match scan_string rest [] with
            | Some (s, rest') => Some (VStr s, rest')
            | None => None
            end
          else if Ascii.eqb c "{" then
            match skip_ws rest with
            | c' :: rest' =>
                if Ascii.eqb c' "}" then Some (VDict [], rest')
                else scan_members fuel' (c' :: rest') []
            | [] => None
            end
          else if Ascii.eqb c "[" then
            match skip_ws rest with
            | c' :: rest' =>
                if Ascii.eqb c' "]" then Some (VList [], rest')
                else scan_items fuel' (c' :: rest') []
            | [] => None
            end
          else if Ascii.eqb c "n" then
            option_map (pair VNone) (strip_prefix (list_ascii_of_string "ull") rest)
          else if Ascii.eqb c "t" then
            option_map (pair (VBool true)) (strip_prefix (list_ascii_of_string "rue") rest)
          else if Ascii.eqb c "f" then
            option_map (pair (VBool false)) (strip_prefix (list_ascii_of_string "alse") rest)
          else scan_int cs
      end
  end

(** The members of an object, from the first key to the closing brace. *)
with scan_members (fuel : nat) (cs : list ascii) (acc : list (string * value))
     {struct fuel} : option (value * list ascii) :=
  match fuel with
  | 0 => None
  | S fuel' =>
      match cs with
      | q :: rest =>
          if Ascii.eqb q dq then
            match scan_string rest [] with
            | Some (k, rest1) =>
                match skip_ws rest1 with
                | colon :: rest2 =>
                    if Ascii.eqb colon ":" then
                      match scan_value fuel' (skip_ws rest2) with
                      | Some (v, rest3) =>
                          match skip_ws rest3 with
                          | d :: rest4 =>
                              if Ascii.eqb d "}"
                              then Some (VDict (dict_set k v acc), rest4)
                              else if Ascii.eqb d ","
                              then scan_members fuel' (skip_ws rest4)
                                                (dict_set k v acc)
                              else None
                          | [] => None
                          end
                      | None => None
                      end
                    else None
                | [] => None
                end
            | None => None
            end
          else None
      | [] => None
      end
  end

(** The items of an array, from the first item to the closing bracket. *)
with scan_items (fuel : nat) (cs : list ascii) (acc : list value)
     {struct fuel} : option (value * list ascii) :=
  match fuel with
  | 0 => None
  | S fuel' =>
      match scan_value fuel' cs with
      | Some (v, rest) =>
          match skip_ws rest with
          | d :: rest' =>
              if Ascii.eqb d "]" then Some (VList (acc ++ [v]), rest')
              else if Ascii.eqb d ","
              then scan_items fuel' (skip_ws rest') (acc ++ [v])
              else None
          | [] => None
          end
      | None => None
      end
  end.

Definition json_decode (s : string) : outcome value :=
  let cs := list_ascii_of_string s in
  match scan_value (2 * List.length cs + 2) (skip_ws cs) with
  | Some (v, rest) =>
      match skip_ws rest with
      | [] => Ret v
      | _ :: _ => Raise (JSONDecodeError "Extra data")
      end
  | None => Raise (JSONDecodeError "Expecting value")
  end.

(** ** Scripted collaborators for concrete runs *)

Definition is_completion (e : event) : bool :=
  match e with ECompletion _ _ _ => true | _ => false end.
Definition is_exec (e : event) : bool :=
  match e with ESandboxExec _ => true | _ => false end.
Definition is_uuid (e : event) : bool :=
  match e with EUuid4 _ => true | _ => false end.

(** The answer to the n-th call of a kind is the n-th entry of a script. *)
Definition scripted {A} (is_call : event -> bool) (script : list A)
           (default : A) (l : list event) : A :=
  nth (List.length (filter is_call l)) script default.

Definition script (ids : list string) (time : Z)
           (completions execs : list (outcome string))
           (upload : outcome unit) : collaborators :=
  {| uuid4 := scripted is_uuid ids "00000000-0000-4000-8000-000000000000";
     utcnow := fun _ => time;
     messages_create := fun l _ _ _ =>
       scripted is_completion completions (Raise (Exception "no answer")) l;
     sandbox_create := fun _ _ => Ret tt;
     sandbox_exec := fun l _ =>
       scripted is_exec execs (Raise (Exception "no answer")) l;
     sandbox_delete := fun _ => Ret tt;
     storage_upload := fun _ _ _ => upload;
     storage_public_url := fun path =>
       ("https://storage.example/videos/" ++ path)%string |}.

Fixpoint show (v : value) : string :=
  match v with
  | VStr s => s
  | VList l => String.concat ", " (map show l)
  | _ => "?"
  end.

(** A stand-in for the templates: the template's name, then its
    arguments. *)
Definition show_template (name : string) (args : list (string * value)) : string :=
  (name ++ ": "
   ++ String.concat "; " (map (fun kv => fst kv ++ "=" ++ show (snd kv)) args))%string.

Definition empty_world : world :=
  {| log := []; sessions := []; questions := []; videos := [] |}.

(** ** Vocabulary of the statements *)

Definition session_questions (session_id : string) (w : world) : list question_row :=
  filter (fun q => String.eqb (q_session_id q) session_id) (questions w).

(** The message [get_next_question] sends for a session, given the
    difficulty and the anti-repetition context. *)
Definition question_prompt (render : string -> list (string * value) -> string)
           (difficulty : Z) (context : list value) : string :=
  ("You are a mathematics teaching assistant. Generate educational questions."
   ++ newline ++ newline
   ++ render "generate_question.j2"
        [("difficulty", VInt difficulty);
         ("previous_questions", VList context)])%string.

(** The spec's wording of the anti-repetition context: the [n] most
    recently created rows, newest first. *)
Fixpoint insert_newest_first (q : question_row) (l : list question_row)
  : list question_row :=
  match l with
  | [] => [q]
  | q' :: rest =>
      if (q_created_at q' <=? q_created_at q)%Z then q :: l
      else q' :: insert_newest_first q rest
  end.

Definition most_recent (n : nat) (rows : list question_row) : list question_row :=
  firstn n (fold_right insert_newest_first [] rows).

Definition question (session_id id text : string) (attempts created_at : Z)
  : question_row :=
  {| q_id := id; q_session_id := session_id; q_user_id := "u1";
     q_question := VStr text; q_topic := VStr "Long Division";
     q_difficulty := 1; q_attempts := attempts; q_created_at := created_at |}.

(** A session with [q1] ... [q6], stored in the order they were created. *)
Definition six_questions : world :=
  {| log := [];
     sessions := [{| s_id := "s1"; s_user_id := "u1" |}];
     questions := [question "s1" "a" "q1" 0 1; question "s1" "b" "q2" 0 2;
                   question "s1" "c" "q3" 0 3; question "s1" "d" "q4" 0 4;
                   question "s1" "e" "q5" 0 5; question "s1" "f" "q6" 0 6];
     videos := [] |}.

Definition one_question_answer : collaborators :=
  script ["11111111-1111-4111-8111-111111111111"] 7
         [Ret (json_text "{'question': 'What is 84 / 4?', 'topic': 'Long Division'}")]
         [] (Ret tt).

(** One stored question that has been answered [n] times. *)
Definition attempted (n : Z) : world :=
  {| log := [];
     sessions := [{| s_id := "s1"; s_user_id := "u1" |}];
     questions := [question "s1" "c" "What is 84 / 4?" n 1];
     videos := [] |}.

(** The completion service judges the answer wrong, then gives a hint. *)
Definition wrong_answer : collaborators :=
  script [] 7
         [Ret (json_text "{'correct': false, 'feedback': 'Check the remainder.'}");
          Ret (json_text "```json
{'hint': 'Divide 8 by 4 first.'}
```")]
         [] (Ret tt).

Definition hour_us : Z := 3600000000.

(** Three stored videos, 25 hours, 23 hours and 2 days old at [noon]. *)
Definition noon : Z := 1762257600000000.

Definition three_videos : world :=
  {| log := []; sessions := []; questions := [];
     videos := [{| v_name := "a.mp4"; v_created_at := noon - 25 * hour_us |};
                {| v_name := "b.mp4"; v_created_at := noon - 23 * hour_us |};
                {| v_name := "c.mp4"; v_created_at := noon - 48 * hour_us |}] |}.

Definition at_noon : collaborators := script [] noon [] [] (Ret tt).

(** Three stored videos, 23 hours, one hour and exactly one day old at
    [noon]: none is older than a day. *)
Definition recent_videos : world :=
  {| log := []; sessions := []; questions := [];
     videos := [{| v_name := "d.mp4"; v_created_at := noon - 23 * hour_us |};
                {| v_name := "e.mp4"; v_created_at := noon - 1 * hour_us |};
                {| v_name := "f.mp4"; v_created_at := noon - 24 * hour_us |}] |}.

(** How the four stages of one pipeline run went, from the world [w0]
    in which the identifier [id] has been drawn: the first failure, or the
    public URL. *)
Inductive stages (json_loads : string -> outcome value)
          (render : string -> list (string * value) -> string)
          (C : collaborators) (question : value) (id : string) (w0 : world)
  : outcome string -> world -> Prop :=
| explain_fails e w1 :
    generate_explanation json_loads render C question w0 = (Raise e, w1) ->
    stages json_loads render C question id w0 (Raise e) w1
| codegen_fails explanation e w1 w2 :
    generate_explanation json_loads render C question w0 = (Ret explanation, w1) ->
    generate_manim_code render C question explanation w1 = (Raise e, w2) ->
    stages json_loads render C question id w0 (Raise e) w2
| execute_fails explanation code e w1 w2 w3 :
    generate_explanation json_loads render C question w0 = (Ret explanation, w1) ->
    generate_manim_code render C question explanation w1 = (Ret code, w2) ->
    execute_manim_code C code w2 = (Raise e, w3) ->
    stages json_loads render C question id w0 (Raise e) w3
| publish_fails explanation code artifact e w1 w2 w3 w4 :
    generate_explanation json_loads render C question w0 = (Ret explanation, w1) ->
    generate_manim_code render C question explanation w1 = (Ret code, w2) ->
    execute_manim_code C code w2 = (Ret artifact, w3) ->
    upload_to_supabase C (fst artifact) id w3 = (Raise e, w4) ->
    stages json_loads render C question id w0 (Raise e) w4
| all_succeed explanation code artifact url w1 w2 w3 w4 :
    generate_explanation json_loads render C question w0 = (Ret explanation, w1) ->
    generate_manim_code render C question explanation w1 = (Ret code, w2) ->
    execute_manim_code C code w2 = (Ret artifact, w3) ->
    upload_to_supabase C (fst artifact) id w3 = (Ret url, w4) ->
    stages json_loads render C question id w0 (Ret url) w4.

Definition log_extends (w w' : world) : Prop :=
  exists rest, log w' = log w ++ rest.

Definition same_videos (w w' : world) : Prop := videos w' = videos w.

(** A service under which a relation between the worlds before and after
    holds, whether it returns or raises. *)
Definition preserves {A} (R : world -> world -> Prop) (m : M A) : Prop :=
  forall w o w', m w = (o, w') -> R w w'.

Definition completed (id url : string) : video_result :=
  {| video_id := id; status := "completed"; video_url := Some url;
     error := None |}.

Definition failed (id : string) (e : exn) : video_result :=
  {| video_id := id; status := "failed"; video_url := None;
     error := Some (str_of_exn e) |}.

(** The sandbox renders nothing: the search for the output file prints
    an empty line. *)
Definition no_output : collaborators :=
  script [] noon []
         [Ret EmptyString; Ret "12 scene.py"; Ret "ModuleNotFoundError: No module named 'numpy'";
          Ret (String nl EmptyString)]
         (Ret tt).

(** The sandbox finds the file, but what comes back is not base64. *)
Definition corrupt_artifact : collaborators :=
  script [] noon []
         [Ret EmptyString; Ret "12 scene.py"; Ret "File ready";
          Ret "media/videos/scene/480p15/ExplanationScene.mp4";
          Ret "A"]
         (Ret tt).

(** The sandbox finds the file and sends the bytes [1; 2; 3; 4]. *)
Definition rendered : collaborators :=
  script ["22222222-2222-4222-8222-222222222222"] noon
         [Ret (json_text "{'explanation': 'Share 12 among 3.'}");
          Ret "```python
from manim import *
```"]
         [Ret EmptyString; Ret "2 scene.py"; Ret "File ready";
          Ret "media/videos/scene/480p15/ExplanationScene.mp4";
          Ret "AQIDBA=="]
         (Ret tt).

(** The 256 bytes. *)
Definition all_bytes : list byte :=
  map (fun n => byte_of_N (N.of_nat n)) (seq 0 256).

(** A character that every step of the channel leaves alone: it is in
    the kept set of the filter, it is ASCII, and it is neither white space
    nor a newline. *)
Definition transport_safe (c : ascii) : bool :=
  is_b64_text_char c && is_ascii_char c && negb (is_space c)
  && negb (Ascii.eqb c nl).








(** The completion service puts a sentence before the object. *)
Definition prose_then_json : string :=
  (json_text "Here is the JSON you asked for:
{'explanation': 'Share 12 among 3.', 'hint': 'Start with 12.'}").

Definition chatty : collaborators :=
  script [] noon [Ret prose_then_json] [] (Ret tt).

(** ** Further services *)

(** [generate_video_for_question] (questions.py 82-88). *)
Definition generate_video_for_question
           (json_loads : string -> outcome value)
           (render : string -> list (string * value) -> string)
           (C : collaborators) (session_id question_id : string)
  : M video_result :=
  (question_data <- select_question question_id ;;
   video_result <- generate_video json_loads render C (q_question question_data) ;;
   ret video_result)%service.

(** [a == b] on Python values: a [str] equals only the same [str], [None]
    only [None]; the comparison of numbers and containers is taken as
    given. *)
Definition value_eq (py_eq : value -> value -> bool) (a b : value) : bool :=
  match a, b with
  | VStr x, VStr y => String.eqb x y
  | VStr _, _ => false
  | _, VStr _ => false
  | VNone, VNone => true
  | VNone, _ => false
  | _, VNone => false
  | _, _ => py_eq a b
  end.

(** What [for x in v] runs over. *)
Definition iterate (v : value) : outcome (list value) :=
  match v with
  | VList items => Ret items
  | VStr s =>
      Ret (map (fun c => VStr (String c EmptyString)) (list_ascii_of_string s))
  | VDict d => Ret (map (fun kv => VStr (fst kv)) d)
  | _ => Raise (TypeError "object is not iterable")
  end.

(** [v[0]]; a [dict] decoded from JSON has no key [0].  The index errors
    of the empty list and the empty string are never reached:
    [first_email] asks for the first item of a truthy value only. *)
Definition first_item (v : value) : outcome value :=
  match v with
  | VList (x :: _) => Ret x
  | VList [] => Raise (Exception "list index out of range")
  | VStr (String c _) => Ret (VStr (String c EmptyString))
  | VStr EmptyString => Raise (Exception "string index out of range")
  | VDict _ => Raise (KeyError "0")
  | _ => Raise (TypeError "object is not subscriptable")
  end.

(** [obj.get(key)] *)
Definition get_or_none (obj : value) (key : string) : outcome value :=
  dict_get obj key VNone.

(** The loop of webhook.py 83-85; [None] when no object matched. *)
Fixpoint find_primary (py_eq : value -> value -> bool)
         (primary_email_id : value) (email_objs : list value)
  : outcome (option value) :=
  match email_objs with
  | [] => Ret None
  | email_obj :: rest =>
      match get_or_none email_obj "id" with
      | Raise e => Raise e
      | Ret id =>
          if value_eq py_eq id primary_email_id
          then match get_or_none email_obj "email_address" with
               | Ret address => Ret (Some address)
               | Raise e => Raise e
               end
          else find_primary py_eq primary_email_id rest
      end
  end.

Definition first_email (email_addresses : value) : outcome value :=
  if truthy email_addresses
  then match first_item email_addresses with
       | Ret email_obj => get_or_none email_obj "email_address"
       | Raise e => Raise e
       end
  else Ret VNone.

(** [extract_primary_email] (webhook.py 65-91). *)
Definition extract_primary_email (py_eq : value -> value -> bool)
           (user_data : value) : outcome value :=
  match dict_get user_data "email_addresses" (VList []) with
  | Raise e => Raise e
  | Ret email_addresses =>
      match get_or_none user_data "primary_email_address_id" with
      | Raise e => Raise e
      | Ret primary_email_id =>
          if negb (truthy email_addresses) then Ret VNone
          else if truthy primary_email_id
          then match iterate email_addresses with
               | Raise e => Raise e
               | Ret email_objs =>
                   match find_primary py_eq primary_email_id email_objs with
                   | Raise e => Raise e
                   | Ret (Some address) => Ret address
                   | Ret None => first_email email_addresses
                   end
               end
          else first_email email_addresses
      end
  end.

(** [msg["role"] != "system"] *)
Definition not_system (role : value) : bool :=
  match role with
  | VStr s => negb (String.eqb s "system")
  | _ => true
  end.

(** The loop of [chat_response] (chat.py 159-162), with the list built so
    far. *)
Fixpoint claude_messages (messages : list value) (built : list value)
  : outcome (list value) :=
  match messages with
  | [] => Ret built
  | msg :: rest =>
      match subscript msg "role" with
      | Raise e => Raise e
      | Ret role =>
          if not_system role
          then claude_messages rest (built ++ [msg])
          else claude_messages rest built
      end
  end.

Definition system_msg : string :=
  "You are a helpful mathematics teaching assistant specializing in long division. Help students understand the step-by-step process, explain remainders, and guide them through solving division problems. Answer questions clearly and concisely.".

(** [chat_response] (chat.py 156-171); [create] is the completion call
    with a system prompt and a message list. *)
Definition chat_response
           (create : string -> nat -> string -> list value -> outcome string)
           (messages : list value) : outcome string :=
  match claude_messages messages [] with
  | Raise e => Raise e
  | Ret sent => create haiku 2048 system_msg sent
  end.

Definition count_completions (l : list event) : nat :=
  List.length (filter is_completion l).

Definition is_sandbox_event (e : event) : bool :=
  match e with
  | ESandboxCreate _ | ESandboxExec _ | ESandboxDelete => true
  | _ => false
  end.

Definition is_storage_event (e : event) : bool :=
  match e with
  | EStorageUpload _ _ | EStoragePublicUrl _ | EStorageList
  | EStorageRemove _ => true
  | _ => false
  end.

(** The row update of [validate_user_answer] as a function of the table. *)
Definition count_attempt (question_id : string) (rows : list question_row)
  : list question_row :=
  map (fun q => if String.eqb (q_id q) question_id
                then set_attempts (q_attempts q + 1) q else q) rows.

(** The completion service is down. *)
Definition no_completion : collaborators := script [] noon [] [] (Ret tt).

(** The completion service judges the answer wrong, then fails. *)
Definition judgement_only : collaborators :=
  script [] noon
         [Ret (json_text "{'correct': false, 'feedback': 'Check the remainder.'}")]
         [] (Ret tt).

(** The completion service answers with an object that has no question. *)
Definition no_question_key : collaborators :=
  script ["11111111-1111-4111-8111-111111111111"] noon
         [Ret (json_text "{'topic': 'Long Division'}")] [] (Ret tt).

(** The sandbox answers the commands [cmds], run one after the other from
    the log [l], with the texts [answers]. *)
Fixpoint answers_from (C : collaborators) (l : list event)
         (cmds answers : list string) : Prop :=
  match cmds, answers with
  | [], [] => True
  | cmd :: cmds', answer :: answers' =>
      sandbox_exec C l cmd = Ret answer
      /\ answers_from C (l ++ [ESandboxExec cmd]) cmds' answers'
  | _, _ => False
  end.

Definition snapshot_name : string := "manim-voiceover-v4".

(** No white space at the start of a text. *)
Definition head_ok (cs : list ascii) : bool :=
  match cs with
  | [] => true
  | c :: _ => negb (is_space c)
  end.

(** The value of [obj.get(key)] for an object given by its entries. *)
Definition entry (key : string) (entries : list (string * value)) : value :=
  match assoc key entries with
  | Some v => v
  | None => VNone
  end.

Definition is_object (v : value) : Prop := exists entries, v = VDict entries.

(** A message that [chat_response] passes on. *)
Definition passed_on (msg : value) : bool :=
  match subscript msg "role" with
  | Ret role => not_system role
  | Raise _ => false
  end.

(** ** Webhook verification (webhook.py 14-62) *)

Inductive webhook_exn : Type :=
| WebhookVerificationError (msg : string)
| PayloadJSONDecodeError (msg : string)
| OtherError (msg : string)
| HTTPException (status_code : nat) (detail : string).

Inductive webhook_outcome (A : Type) : Type :=
| Verified (a : A)
| Refused (e : webhook_exn).
Arguments Verified {A} a.
Arguments Refused {A} e.

(** [not h] for a header value: absent or empty. *)
Definition header_missing (h : option string) : bool :=
  match h with
  | None => true
  | Some s => String.eqb s EmptyString
  end.

Record svix_headers : Type := {
  svix_id : string;
  svix_timestamp : string;
  svix_signature : string
}.

Section Webhook.

(** The Svix library: building a verifier from the secret, and verifying
    a body against the three headers. *)
Variable Verifier : Type.
Variable Webhook : string -> webhook_outcome Verifier.
Variable verify : Verifier -> list byte -> svix_headers -> webhook_outcome value.

Definition verify_webhook_signature (headers : string -> option string)
           (body : list byte) (webhook_secret : string)
  : webhook_outcome value :=
  let id := headers "svix-id" in
  let timestamp := headers "svix-timestamp" in
  let signature := headers "svix-signature" in
  if header_missing id || header_missing timestamp || header_missing signature
  then Refused (HTTPException 400
         "Missing required Svix headers (svix-id, svix-timestamp, svix-signature)")
  else
    match id, timestamp, signature with
    | Some i, Some t, Some s =>
        match Webhook webhook_secret with
        | Refused e => Refused e
        | Verified wh =>
            match verify wh body {| svix_id := i; svix_timestamp := t;
                                    svix_signature := s |} with
            | Verified payload => Verified payload
            | Refused (WebhookVerificationError m) =>
                Refused (HTTPException 400
                  ("Webhook signature verification failed: " ++ m))
            | Refused (PayloadJSONDecodeError m) =>
                Refused (HTTPException 400 ("Invalid JSON payload: " ++ m))
            | Refused e => Refused e
            end
        end
    | _, _, _ =>
        Refused (HTTPException 400
          "Missing required Svix headers (svix-id, svix-timestamp, svix-signature)")
    end.

End Webhook.

(** Clerk user data with two addresses, the second one primary. *)
Definition first_address : list (string * value) :=
  [("id", VStr "idn_1"); ("email_address", VStr "old@example.com")].
Definition second_address : list (string * value) :=
  [("id", VStr "idn_2"); ("email_address", VStr "new@example.com")].

Definition clerk_user (primary : value) : list (string * value) :=
  [("id", VStr "user_1");
   ("email_addresses", VList [VDict first_address; VDict second_address]);
   ("primary_email_address_id", primary)].

Definition never_equal (a b : value) : bool := false.

Definition message (role content : string) : value :=
  VDict [("role", VStr role); ("content", VStr content)].

(** A completion call that answers with the number of messages it got. *)
Definition echo_count (model : string) (max_tokens : nat) (system : string)
           (messages : list value) : outcome string :=
  Ret (String (ascii_of_nat (48 + List.length messages)) EmptyString).

(** * Properties *)

(** ** Running services *)

Lemma bind_ret_inv {A B} (m : M A) (k : A -> M B) w b w' :
  bind m k w = (Ret b, w') ->
  exists a w1, m w = (Ret a, w1) /\ k a w1 = (Ret b, w').
Proof.
  unfold bind. destruct (m w) as [[a|e] w1]; intro H.
  - exists a, w1. split; [reflexivity | exact H].
  - discriminate H.
Qed.

Lemma bind_run {A B} (m : M A) (k : A -> M B) w a w1 :
  m w = (Ret a, w1) -> bind m k w = k a w1.
Proof. unfold bind. intros ->. reflexivity. Qed.

Lemma bind_raise {A B} (m : M A) (k : A -> M B) w e w1 :
  m w = (Raise e, w1) -> bind m k w = (Raise e, w1).
Proof. unfold bind. intros ->. reflexivity. Qed.

Lemma lift_ret_inv {A} (o : outcome A) w a w' :
  lift o w = (Ret a, w') -> o = Ret a /\ w' = w.
Proof. unfold lift. intro H. inversion H. split; reflexivity. Qed.

Lemma ret_inv {A} (x a : A) w w' :
  ret x w = (Ret a, w') -> a = x /\ w' = w.
Proof. unfold ret. intro H. inversion H. split; reflexivity. Qed.

Ltac invert_run :=
  repeat match goal with
  | H : bind _ _ _ = (Ret _, _) |- _ =>
      apply bind_ret_inv in H; destruct H as (? & ? & ? & H)
  | H : lift _ _ = (Ret _, _) |- _ =>
      apply lift_ret_inv in H; destruct H as [? ?]; subst
  | H : ret _ _ = (Ret _, _) |- _ =>
      apply ret_inv in H; destruct H as [? ?]; subst
  end.

(** ** Difficulty derivation *)

Lemma derive_difficulty_none (k r : nat) :
  r < 3 ->
  derive_difficulty (3 * k + r) None = if k <? 9 then (1 + Z.of_nat k)%Z else 10%Z.
Proof.
  intro Hr. unfold derive_difficulty.
  assert (E : (Z.of_nat (3 * k + r) / 3 = Z.of_nat k)%Z).
  { symmetry. apply (Z.div_unique _ _ _ (Z.of_nat r)); lia. }
  rewrite E. destruct (Nat.ltb_spec k 9); lia.
Qed.

Lemma derive_difficulty_some (n : nat) (d : Z) :
  derive_difficulty n (Some d)
  = if (d <? 1)%Z then 1%Z else if (10 <? d)%Z then 10%Z else d.
Proof.
  unfold derive_difficulty.
  destruct (Z.ltb_spec d 1); destruct (Z.ltb_spec 10 d); lia.
Qed.

(** ** The question engine *)

Section QuestionEngine.

Variable json_loads : string -> outcome value.
Variable py_str : value -> string.
Variable render : string -> list (string * value) -> string.
Variable C : collaborators.

(** Every run of [get_next_question] that returns made one completion
    call and one identifier draw, and appended one row. *)
Lemma get_next_question_run session_id difficulty w r w' :
  get_next_question json_loads render C session_id difficulty w = (Ret r, w') ->
  let prior := session_questions session_id w in
  let d := derive_difficulty (List.length prior) difficulty in
  let call := ECompletion haiku 1024
                (question_prompt render d (firstn 5 (map q_question prior))) in
  let id := uuid4 C (log w ++ [call]) in
  log w' = log w ++ [call; EUuid4 id]
  /\ qr_question_id r = id
  /\ qr_difficulty r = d
  /\ exists row,
       questions w' = questions w ++ [row]
       /\ q_id row = id /\ q_session_id row = session_id
       /\ q_question row = qr_question r
       /\ q_difficulty row = d /\ q_attempts row = 0%Z.
Proof.
  intro H. unfold get_next_question in H.
  apply bind_ret_inv in H. destruct H as (session & w1 & Hs & H).
  assert (w1 = w) as ->.
  { unfold select_session, single in Hs.
    destruct (filter _ (sessions w)) as [|s [|s' l]];
      unfold ret, raise in Hs; inversion Hs; reflexivity. }
  apply bind_ret_inv in H. destruct H as (allq & w2 & Hq & H).
  unfold select_session_questions in Hq. inversion Hq; subst allq w2. clear Hq.
  apply bind_ret_inv in H. destruct H as (qd & w3 & Hg & H).
  unfold generate_next_question in Hg.
  apply bind_ret_inv in Hg. destruct Hg as (text & w4 & Hc & Hg).
  apply lift_ret_inv in Hg. destruct Hg as [Hparse ->].
  unfold completion in Hc. inversion Hc as [[Htext Hw4]]. clear Hc.
  apply bind_ret_inv in H. destruct H as (id & w5 & Hid & H).
  unfold new_uuid in Hid. inversion Hid as [[Hidv Hw5]]. clear Hid.
  invert_run.
  unfold now in *.
  match goal with H : (Ret _, _) = (Ret _, _) |- _ => inversion H; subst; clear H end.
  match goal with H : insert_question _ _ = _ |- _ =>
    unfold insert_question in H; inversion H; subst; clear H end.
  cbn. unfold session_questions, question_prompt.
  repeat split.
  - rewrite <- app_assoc. reflexivity.
  - eexists. split; [reflexivity|]. cbn. repeat split. congruence.
Qed.


(** C7: without an explicit difficulty the level is 1 for 0-2 prior
    questions, 2 for 3-5, one more for every further 3, and 10 from 27
    prior questions on; an explicit difficulty is clamped into 1..10.  The
    level is the one returned and the one stored with the new row. *)
Theorem get_next_question_difficulty session_id difficulty w r w' (k rem : nat) :
  get_next_question json_loads render C session_id difficulty w = (Ret r, w') ->
  List.length (session_questions session_id w) = 3 * k + rem ->
  rem < 3 ->
  qr_difficulty r
  = match difficulty with
    | None => if k <? 9 then (1 + Z.of_nat k)%Z else 10%Z
    | Some d => if (d <? 1)%Z then 1%Z else if (10 <? d)%Z then 10%Z else d
    end
  /\ (1 <= qr_difficulty r <= 10)%Z
  /\ exists row, questions w' = questions w ++ [row]
                 /\ q_difficulty row = qr_difficulty r.
Proof.
  intros Hrun Hlen Hrem.
  destruct (get_next_question_run _ _ _ _ _ Hrun)
    as (_ & _ & Hd & row & Hrows & _ & _ & _ & Hrd & _).
  rewrite Hlen in Hd, Hrd.
  assert (Hval : qr_difficulty r
                 = match difficulty with
                   | None => if k <? 9 then (1 + Z.of_nat k)%Z else 10%Z
                   | Some d => if (d <? 1)%Z then 1%Z
                               else if (10 <? d)%Z then 10%Z else d
                   end).
  { rewrite Hd. destruct difficulty as [d|].
    - apply derive_difficulty_some.
    - apply derive_difficulty_none. exact Hrem. }
  split; [exact Hval|]. split.
  - rewrite Hval. destruct difficulty as [d|].
    + destruct (Z.ltb_spec d 1); destruct (Z.ltb_spec 10 d); lia.
    + destruct (Nat.ltb_spec k 9); lia.
  - exists row. split; [exact Hrows | congruence].
Qed.

(** C9, as the code has it: the context sent with the completion call is
    the first five (or fewer) prior question texts in the order the store
    returns the session's rows; the new row carries the identifier drawn
    during the call, which is also the one returned, and zero attempts. *)
Theorem get_next_question_context_and_row session_id difficulty w r w' :
  get_next_question json_loads render C session_id difficulty w = (Ret r, w') ->
  let prior := map q_question (session_questions session_id w) in
  exists d id row,
    log w' = log w ++ [ECompletion haiku 1024
                         (question_prompt render d (firstn 5 prior));
                       EUuid4 id]
    /\ List.length (firstn 5 prior) = Nat.min 5 (List.length prior)
    /\ questions w' = questions w ++ [row]
    /\ q_id row = id /\ qr_question_id r = id
    /\ q_question row = qr_question r
    /\ q_attempts row = 0%Z.
Proof.
  intros Hrun prior.
  destruct (get_next_question_run _ _ _ _ _ Hrun)
    as (Hlog & Hid & _ & row & Hrows & Hrid & _ & Hq & _ & Hatt).
  eexists _, _, row. split; [exact Hlog|].
  split; [apply length_firstn|].
  repeat split; assumption.
Qed.

End QuestionEngine.

Lemma get_next_question_difficulty_witness :
  exists r w',
    get_next_question json_decode show_template one_question_answer
                      "s1" None six_questions = (Ret r, w')
    /\ List.length (session_questions "s1" six_questions) = 3 * 2 + 0
    /\ qr_difficulty r = 3%Z.
Proof.
  eexists _, _. split; [vm_compute; reflexivity|].
  split; [reflexivity|].
  eapply (get_next_question_difficulty json_decode show_template
            one_question_answer "s1" None six_questions _ _ 2 0);
    [vm_compute; reflexivity | reflexivity | lia].
Defined.

Example explicit_difficulty_clamps :
  derive_difficulty 0 (Some 0%Z) = 1%Z /\ derive_difficulty 0 (Some 15%Z) = 10%Z
  /\ derive_difficulty 2 None = 1%Z /\ derive_difficulty 5 None = 2%Z
  /\ derive_difficulty 1000 None = 10%Z.
Proof. repeat split. Qed.

Lemma get_next_question_context_and_row_witness :
  exists r w' row,
    get_next_question json_decode show_template one_question_answer
                      "s1" None six_questions = (Ret r, w')
    /\ questions w' = questions six_questions ++ [row]
    /\ q_id row = "11111111-1111-4111-8111-111111111111"
    /\ qr_question_id r = "11111111-1111-4111-8111-111111111111"
    /\ q_attempts row = 0%Z.
Proof.
  destruct (get_next_question_context_and_row json_decode show_template
              one_question_answer "s1" None six_questions _ _
              ltac:(vm_compute; reflexivity))
    as (d & id & row & Hlog & _ & Hrows & Hid & Hrid & _ & Hatt).
  eexists _, _, row. split; [vm_compute; reflexivity|].
  split; [exact Hrows|].
  assert (id = "11111111-1111-4111-8111-111111111111") as <-.
  { symmetry. exact Hrid. }
  repeat split; assumption.
Defined.

(** C9 as stated does not hold: with six prior questions stored oldest
    first, the context sent is [q1 .. q5]; the most recent question, [q6],
    is not in it. *)
Lemma get_next_question_context_not_most_recent :
  let prior := session_questions "s1" six_questions in
  map q_question (most_recent 5 prior)
  = [VStr "q6"; VStr "q5"; VStr "q4"; VStr "q3"; VStr "q2"]
  /\ exists r w',
       get_next_question json_decode show_template one_question_answer
                         "s1" None six_questions = (Ret r, w')
       /\ log w'
          = [ECompletion haiku 1024
               (question_prompt show_template 3
                  [VStr "q1"; VStr "q2"; VStr "q3"; VStr "q4"; VStr "q5"]);
             EUuid4 (qr_question_id r)]
       /\ ~ In (VStr "q6") [VStr "q1"; VStr "q2"; VStr "q3"; VStr "q4"; VStr "q5"].
Proof.
  split; [reflexivity|].
  eexists _, _. split; [vm_compute; reflexivity|].
  split; [vm_compute; reflexivity|].
  cbn. intros [H|[H|[H|[H|[H|[]]]]]]; discriminate H.
Qed.

Section AnswerValidation.

Variable json_loads : string -> outcome value.
Variable py_str : value -> string.
Variable render : string -> list (string * value) -> string.
Variable C : collaborators.

Lemma choose_feedback_run question answer validation n w fb w' :
  choose_feedback json_loads py_str render C question answer validation n w
  = (Ret fb, w') ->
  exists correct,
    subscript validation "correct" = Ret correct
    /\ (truthy correct = true -> subscript validation "feedback" = Ret fb)
    /\ (truthy correct = false -> n = 1%Z ->
        fb = VStr "Incorrect. Please try again.")
    /\ (truthy correct = false -> n = 2%Z ->
        exists hint,
          generate_hint json_loads render C question answer w = (Ret hint, w')
          /\ fb = VStr ("Not quite right. Here's a hint: "
                        ++ format_value py_str hint)%string)
    /\ (truthy correct = false -> (3 <= n)%Z ->
        exists feedback,
          subscript validation "feedback" = Ret feedback
          /\ fb = VStr ("That's not correct. "
                        ++ format_value py_str feedback)%string).
Proof.
  unfold choose_feedback. intro H.
  apply bind_ret_inv in H. destruct H as (correct & w1 & Hc & H).
  apply lift_ret_inv in Hc. destruct Hc as [Hc ->].
  exists correct. split; [exact Hc|].
  destruct (truthy correct) eqn:Ht.
  - apply lift_ret_inv in H. destruct H as [H _].
    split; [intros _; exact H|].
    repeat split; intros Hd; discriminate Hd.
  - split; [intro Hd; discriminate Hd|].
    destruct (Z.eqb_spec n 1) as [->|N1].
    + apply ret_inv in H. destruct H as [-> _].
      split; [reflexivity|]. split; intros _ Hn; lia.
    + split; [intros _ Hn; lia|].
      destruct (Z.eqb_spec n 2) as [->|N2].
      * apply bind_ret_inv in H. destruct H as (hint & w2 & Hh & H).
        apply ret_inv in H. destruct H as [-> ->].
        split; [|intros _ Hn; lia].
        intros _ _. exists hint. split; [exact Hh | reflexivity].
      * apply bind_ret_inv in H. destruct H as (feedback & w2 & Hf & H).
        apply lift_ret_inv in Hf. destruct Hf as [Hf ->].
        apply ret_inv in H. destruct H as [-> _].
        split; [intros _ Hn; lia|].
        intros _ _. exists feedback. split; [exact Hf | reflexivity].
Qed.

(** C6: the escalating feedback policy of [validate_user_answer].  With
    [validation] the judgement the completion service gave and the
    attempt count the stored one plus one: a correct answer gets the
    model's feedback verbatim; a wrong answer gets the fixed retry message
    at count 1, a generated hint after a fixed lead-in at count 2, and the
    model's feedback after a fixed lead-in from count 3 on; [offer_video]
    holds exactly for a wrong answer at a count of 3 or more. *)
Theorem validate_user_answer_feedback session_id question_id answer w r w' :
  validate_user_answer json_loads py_str render C session_id question_id answer w
  = (Ret r, w') ->
  exists q validation correct w1,
    select_question question_id w = (Ret q, w)
    /\ validate_answer json_loads render C (q_question q) answer w
       = (Ret validation, w1)
    /\ subscript validation "correct" = Ret correct
    /\ ar_correct r = correct
    /\ ar_attempts r = (q_attempts q + 1)%Z
    /\ (truthy correct = true ->
        subscript validation "feedback" = Ret (ar_feedback r))
    /\ (truthy correct = false -> ar_attempts r = 1%Z ->
        ar_feedback r = VStr "Incorrect. Please try again.")
    /\ (truthy correct = false -> ar_attempts r = 2%Z ->
        exists hint,
          generate_hint json_loads render C (q_question q) answer
            (snd (update_attempts question_id (q_attempts q + 1) w1))
          = (Ret hint, w')
          /\ ar_feedback r = VStr ("Not quite right. Here's a hint: "
                                   ++ format_value py_str hint)%string)
    /\ (truthy correct = false -> (3 <= ar_attempts r)%Z ->
        exists feedback,
          subscript validation "feedback" = Ret feedback
          /\ ar_feedback r = VStr ("That's not correct. "
                                   ++ format_value py_str feedback)%string)
    /\ (ar_offer_video r = true
        <-> truthy correct = false /\ (3 <= ar_attempts r)%Z).
Proof.
  unfold validate_user_answer. intro H.
  apply bind_ret_inv in H. destruct H as (q & w0 & Hq & H).
  assert (w0 = w) as ->.
  { unfold select_question, single in Hq.
    destruct (filter _ (questions w)) as [|q0 [|q1 l]];
      unfold ret, raise in Hq; inversion Hq; reflexivity. }
  apply bind_ret_inv in H. destruct H as (validation & w1 & Hv & H).
  apply bind_ret_inv in H. destruct H as ([] & w2 & Hu & H).
  apply bind_ret_inv in H. destruct H as (fb & w3 & Hf & H).
  apply bind_ret_inv in H. destruct H as (c1 & w4 & Hc1 & H).
  apply lift_ret_inv in Hc1. destruct Hc1 as [Hc1 ->].
  apply bind_ret_inv in H. destruct H as (c2 & w5 & Hc2 & H).
  apply lift_ret_inv in Hc2. destruct Hc2 as [Hc2 ->].
  apply ret_inv in H. destruct H as [-> ->].
  assert (c2 = c1) as -> by congruence.
  assert (Hw2 : w2 = snd (update_attempts question_id (q_attempts q + 1) w1)).
  { unfold update_attempts in *. inversion Hu. reflexivity. }
  destruct (choose_feedback_run _ _ _ _ _ _ _ Hf)
    as (c & Hc & Hok & H1 & H2 & H3).
  assert (c = c1) as -> by congruence.
  exists q, validation, c1, w1. cbn [ar_correct ar_attempts ar_feedback ar_offer_video].
  repeat (split; [first [assumption | reflexivity]|]).
  split; [rewrite <- Hw2; exact H2|].
  split; [exact H3|].
  destruct (truthy c1); cbn; split.
  - discriminate.
  - intros [Hd _]. discriminate Hd.
  - intro Hb. split; [reflexivity|]. apply Z.leb_le. exact Hb.
  - intros [_ Hb]. apply Z.leb_le. exact Hb.
Qed.

End AnswerValidation.

Lemma validate_user_answer_feedback_witness :
  exists r w',
    validate_user_answer json_decode show show_template wrong_answer
                         "s1" "c" "20" (attempted 2) = (Ret r, w')
    /\ ar_attempts r = 3%Z
    /\ ar_offer_video r = true
    /\ ar_feedback r = VStr "That's not correct. Check the remainder.".
Proof.
  destruct (validate_user_answer_feedback json_decode show show_template
              wrong_answer "s1" "c" "20" (attempted 2) _ _
              ltac:(vm_compute; reflexivity))
    as (q & validation & correct & w1 & Hq & Hv & Hc & _ & Hn & _ & _ & _
        & H3 & Hoffer).
  eexists _, _. split; [vm_compute; reflexivity|].
  vm_compute in Hq. inversion Hq; subst q; clear Hq.
  vm_compute in Hv. inversion Hv; subst validation w1; clear Hv.
  vm_compute in Hc. inversion Hc; subst correct; clear Hc.
  assert (Hwrong : truthy (VBool false) = false) by reflexivity.
  assert (Hthird : (3 <= 3)%Z) by lia.
  split; [exact Hn|]. split.
  - apply Hoffer. split; assumption.
  - destruct (H3 Hwrong Hthird) as (feedback & Hf & Hfb).
    vm_compute in Hf. inversion Hf; subst feedback. exact Hfb.
Defined.

Example validate_user_answer_first_and_second_attempt :
  (exists r w', validate_user_answer json_decode show show_template wrong_answer
                                     "s1" "c" "20" (attempted 0) = (Ret r, w')
                /\ ar_feedback r = VStr "Incorrect. Please try again."
                /\ ar_offer_video r = false /\ ar_attempts r = 1%Z)
  /\ (exists r w', validate_user_answer json_decode show show_template wrong_answer
                                        "s1" "c" "20" (attempted 1) = (Ret r, w')
                   /\ ar_feedback r
                      = VStr "Not quite right. Here's a hint: Divide 8 by 4 first."
                   /\ ar_offer_video r = false /\ ar_attempts r = 2%Z).
Proof.
  split; eexists _, _; (split; [vm_compute; reflexivity|]); repeat split.
Qed.

(** ** Retention sweep *)

Lemma NoDup_map_inj {A B} (f : A -> B) (l : list A) x y :
  NoDup (map f l) -> In x l -> In y l -> f x = f y -> x = y.
Proof.
  induction l as [|a l IH]; cbn; intros Hnd Hx Hy Hf; [contradiction|].
  inversion Hnd as [|? ? Hnotin Hnd']; subst.
  destruct Hx as [->|Hx], Hy as [->|Hy].
  - reflexivity.
  - exfalso. apply Hnotin. rewrite Hf. apply in_map. exact Hy.
  - exfalso. apply Hnotin. rewrite <- Hf. apply in_map. exact Hx.
  - apply IH; assumption.
Qed.

Lemma named_among_selected (p : stored_video -> bool) (vs : list stored_video) v :
  NoDup (map v_name vs) -> In v vs ->
  existsb (String.eqb (v_name v)) (map v_name (filter p vs)) = p v.
Proof.
  intros Hnd Hin. destruct (p v) eqn:Hp.
  - apply existsb_exists. exists (v_name v). split.
    + apply in_map. apply filter_In. split; assumption.
    + apply String.eqb_refl.
  - destruct (existsb _ _) eqn:He; [|reflexivity].
    apply existsb_exists in He. destruct He as (n & Hn & Heq).
    apply String.eqb_eq in Heq. apply in_map_iff in Hn.
    destruct Hn as (v' & Hname & Hv'). apply filter_In in Hv'.
    destruct Hv' as [Hin' Hp'].
    assert (v' = v) as ->.
    { apply (NoDup_map_inj v_name vs); [assumption .. | congruence]. }
    congruence.
Qed.

Lemma remove_selected (p : stored_video -> bool) (vs : list stored_video) :
  NoDup (map v_name vs) ->
  filter (fun v => negb (existsb (String.eqb (v_name v)) (map v_name (filter p vs)))) vs
  = filter (fun v => negb (p v)) vs.
Proof.
  intro Hnd. apply filter_ext_in. intros v Hin.
  rewrite named_among_selected by assumption. reflexivity.
Qed.

(** C8: [cleanup_old_videos] lists the bucket, removes in a single
    [remove] call exactly the objects created strictly before now minus
    one day, keeps every other object, and reports the number and the
    names of the removed objects.  Object names are unique in a bucket. *)
Theorem cleanup_old_videos_removes_old (C : collaborators) (w : world) :
  NoDup (map v_name (videos w)) ->
  let cutoff := (utcnow C (log w) - one_day_us)%Z in
  let is_old := fun v => (v_created_at v <? cutoff)%Z in
  let old := filter is_old (videos w) in
  exists w',
    cleanup_old_videos C w
    = (Ret {| deleted := List.length old; files := map v_name old |}, w')
    /\ videos w' = filter (fun v => negb (is_old v)) (videos w)
    /\ log w' = log w ++ EStorageList
                  :: match old with
                     | [] => []
                     | _ :: _ => [EStorageRemove (map v_name old)]
                     end
    /\ count_removes (log w') <= S (count_removes (log w)).
Proof.
  intros Hnd cutoff is_old old.
  pose proof (remove_selected is_old (videos w) Hnd) as Hrm.
  fold old in Hrm.
  unfold cleanup_old_videos, bind, now, storage_list, ret. cbn.
  fold cutoff. fold is_old. fold old.
  destruct old as [|v0 old'] eqn:Hold.
  - cbn. eexists. split; [reflexivity|]. cbn.
    split.
    + rewrite <- Hrm. cbn. clear. induction (videos w) as [|v l IH]; cbn; congruence.
    + split; [reflexivity|].
      unfold count_removes. rewrite filter_app, length_app. cbn. lia.
  - cbn [map]. unfold storage_remove. cbn.
    rewrite length_map.
    eexists. split; [reflexivity|]. cbn.
    split; [exact Hrm|].
    split; [rewrite <- app_assoc; reflexivity|].
    unfold count_removes. rewrite !filter_app, !length_app. cbn. lia.
Qed.

Lemma cleanup_old_videos_removes_old_witness :
  exists w',
    cleanup_old_videos at_noon three_videos
    = (Ret {| deleted := 2; files := ["a.mp4"; "c.mp4"] |}, w')
    /\ videos w' = [{| v_name := "b.mp4"; v_created_at := noon - 23 * hour_us |}]
    /\ count_removes (log w') = 1.
Proof.
  destruct (cleanup_old_videos_removes_old at_noon three_videos)
    as (w' & Hrun & Hvideos & Hlog & _).
  - cbn. repeat constructor; cbn; intuition discriminate.
  - exists w'. split; [exact Hrun|]. split; [exact Hvideos|].
    rewrite Hlog. reflexivity.
Defined.

(** ** Frame conditions *)

Section Frames.

Variable R : world -> world -> Prop.
Hypothesis R_refl : forall w, R w w.
Hypothesis R_trans : forall w1 w2 w3, R w1 w2 -> R w2 w3 -> R w1 w3.

Lemma preserves_ret {A} (a : A) : preserves R (ret a).
Proof. intros w o w' H. inversion H. apply R_refl. Qed.

Lemma preserves_raise {A} (e : exn) : preserves R (@raise A e).
Proof. intros w o w' H. inversion H. apply R_refl. Qed.

Lemma preserves_lift {A} (o : outcome A) : preserves R (lift o).
Proof. intros w o' w' H. inversion H. apply R_refl. Qed.

Lemma preserves_bind {A B} (m : M A) (k : A -> M B) :
  preserves R m -> (forall a, preserves R (k a)) -> preserves R (bind m k).
Proof.
  intros Hm Hk w o w' H. unfold bind in H.
  destruct (m w) as [[a|e] w1] eqn:E.
  - eapply R_trans; [eapply Hm; exact E | eapply Hk; exact H].
  - inversion H; subst. eapply Hm. exact E.
Qed.

Lemma preserves_try_except {A} (m : M A) (h : exn -> M A) :
  preserves R m -> (forall e, preserves R (h e)) -> preserves R (try_except m h).
Proof.
  intros Hm Hh w o w' H. unfold try_except in H.
  destruct (m w) as [[a|e] w1] eqn:E.
  - inversion H; subst. eapply Hm. exact E.
  - eapply R_trans; [eapply Hm; exact E | eapply Hh; exact H].
Qed.

End Frames.

Lemma log_extends_refl w : log_extends w w.
Proof. exists []. symmetry. apply app_nil_r. Qed.

Lemma log_extends_trans w1 w2 w3 :
  log_extends w1 w2 -> log_extends w2 w3 -> log_extends w1 w3.
Proof.
  intros [r1 H1] [r2 H2]. exists (r1 ++ r2).
  rewrite H2, H1. symmetry. apply app_assoc.
Qed.

Lemma log_extends_record e w : log_extends w (record e w).
Proof. exists [e]. reflexivity. Qed.

Lemma same_videos_refl w : same_videos w w.
Proof. reflexivity. Qed.

Lemma same_videos_trans w1 w2 w3 :
  same_videos w1 w2 -> same_videos w2 w3 -> same_videos w1 w3.
Proof. unfold same_videos. congruence. Qed.

Lemma same_videos_record e w : same_videos w (record e w).
Proof. reflexivity. Qed.

Create HintDb frames.

#[local] Hint Resolve log_extends_refl log_extends_record
  same_videos_refl same_videos_record : frames.

Ltac frame_rel :=
  first [ exact log_extends_trans | exact same_videos_trans
        | exact log_extends_refl | exact same_videos_refl ].

(** Reduces a frame condition on a service to its collaborator calls. *)
Ltac frame_steps :=
  repeat first
    [ apply preserves_ret; frame_rel
    | apply preserves_raise; frame_rel
    | apply preserves_lift; frame_rel
    | solve [auto with frames]
    | apply preserves_bind; [frame_rel | | intros]
    | match goal with
      | |- preserves _ (if ?b then _ else _) => destruct b
      | |- preserves _ (match ?x with _ => _ end) => destruct x
      end ].

Ltac primitive_frame :=
  let w := fresh "w" in let o := fresh "o" in let w' := fresh "w'" in
  let H := fresh "H" in
  intros w o w' H; inversion H; subst; auto with frames.

Section VideoPipeline.

Variable json_loads : string -> outcome value.
Variable render : string -> list (string * value) -> string.
Variable C : collaborators.

Lemma completion_log model n content :
  preserves log_extends (completion C model n content).
Proof. primitive_frame. Qed.

Lemma completion_videos model n content :
  preserves same_videos (completion C model n content).
Proof. primitive_frame. Qed.

Lemma process_exec_log command : preserves log_extends (process_exec C command).
Proof. primitive_frame. Qed.

Lemma process_exec_videos command : preserves same_videos (process_exec C command).
Proof. primitive_frame. Qed.

Lemma daytona_create_log s : preserves log_extends (daytona_create C s).
Proof. primitive_frame. Qed.

Lemma daytona_create_videos s : preserves same_videos (daytona_create C s).
Proof. primitive_frame. Qed.

Lemma sandbox_delete_log : preserves log_extends (sandbox_delete_call C).
Proof. primitive_frame. Qed.

Lemma sandbox_delete_videos : preserves same_videos (sandbox_delete_call C).
Proof. primitive_frame. Qed.

Lemma get_public_url_log path : preserves log_extends (get_public_url C path).
Proof. primitive_frame. Qed.

Lemma storage_upload_log path data :
  preserves log_extends (storage_upload_call C path data).
Proof.
  intros w o w' H. unfold storage_upload_call in H.
  destruct (storage_upload C (log w) path data) as [[]|e];
    inversion H; subst; exists [EStorageUpload path data]; reflexivity.
Qed.

#[local] Hint Resolve completion_log completion_videos process_exec_log
  process_exec_videos daytona_create_log daytona_create_videos
  sandbox_delete_log sandbox_delete_videos get_public_url_log
  storage_upload_log : frames.

Lemma generate_explanation_log question :
  preserves log_extends (generate_explanation json_loads render C question).
Proof. unfold generate_explanation. frame_steps. Qed.

Lemma generate_explanation_videos question :
  preserves same_videos (generate_explanation json_loads render C question).
Proof. unfold generate_explanation. frame_steps. Qed.

Lemma generate_manim_code_log question explanation :
  preserves log_extends (generate_manim_code render C question explanation).
Proof. unfold generate_manim_code. frame_steps. Qed.

Lemma generate_manim_code_videos question explanation :
  preserves same_videos (generate_manim_code render C question explanation).
Proof. unfold generate_manim_code. frame_steps. Qed.

Lemma execute_manim_code_log code :
  preserves log_extends (execute_manim_code C code).
Proof. unfold execute_manim_code. frame_steps. Qed.

Lemma execute_manim_code_videos code :
  preserves same_videos (execute_manim_code C code).
Proof. unfold execute_manim_code. frame_steps. Qed.

Lemma upload_to_supabase_log data id :
  preserves log_extends (upload_to_supabase C data id).
Proof. unfold upload_to_supabase. frame_steps. Qed.

Lemma upload_to_supabase_run data id w :
  let path := (id ++ ".mp4")%string in
  (exists e w', upload_to_supabase C data id w = (Raise e, w')
                /\ videos w' = videos w)
  \/ (exists w', upload_to_supabase C data id w
                 = (Ret (storage_public_url C path), w')
                 /\ log w' = log w ++ [EStorageUpload path data;
                                       EStoragePublicUrl path]).
Proof.
  intro path. unfold upload_to_supabase, bind, storage_upload_call.
  fold path.
  destruct (storage_upload C (log w) path data) as [[]|e].
  - right. eexists. split; [reflexivity|]. cbn.
    rewrite <- app_assoc. reflexivity.
  - left. eexists _, _. split; reflexivity.
Qed.

(** The stages always come to an outcome. *)
Lemma stages_total question id w0 :
  exists o w', stages json_loads render C question id w0 o w'.
Proof.
  destruct (generate_explanation json_loads render C question w0)
    as [[explanation|e] w1] eqn:E1; [|eauto using explain_fails].
  destruct (generate_manim_code render C question explanation w1)
    as [[code|e] w2] eqn:E2; [|eauto using codegen_fails].
  destruct (execute_manim_code C code w2)
    as [[artifact|e] w3] eqn:E3; [|eauto using execute_fails].
  destruct (upload_to_supabase C (fst artifact) id w3)
    as [[url|e] w4] eqn:E4; [eauto using all_succeed | eauto using publish_fails].
Qed.

Lemma try_except_ret {A} (m : M A) h w a w' :
  m w = (Ret a, w') -> try_except m h w = (Ret a, w').
Proof. unfold try_except. intros ->. reflexivity. Qed.

Lemma try_except_raise {A} (m : M A) h w e w' :
  m w = (Raise e, w') -> try_except m h w = h e w'.
Proof. unfold try_except. intros ->. reflexivity. Qed.

(** [generate_video] draws the identifier, and turns the outcome of the
    stages into a result. *)
Lemma generate_video_by_stages question w o w' :
  let id := uuid4 C (log w) in
  stages json_loads render C question id (record (EUuid4 id) w) o w' ->
  generate_video json_loads render C question w
  = (Ret (match o with
          | Ret url => completed id url
          | Raise e => failed id e
          end), w').
Proof.
  intros id Hst. unfold generate_video.
  rewrite (bind_run _ _ w id (record (EUuid4 id) w)) by reflexivity.
  unfold get_or_generate_code.
  inversion Hst as [e w1 H1 | ex e w1 w2 H1 H2 | ex code e w1 w2 w3 H1 H2 H3
                    | ex code art e w1 w2 w3 w4 H1 H2 H3 H4
                    | ex code art url w1 w2 w3 w4 H1 H2 H3 H4]; subst.
  - erewrite try_except_raise; [reflexivity|].
    apply bind_raise. apply bind_raise. exact H1.
  - erewrite try_except_raise; [reflexivity|].
    apply bind_raise. erewrite bind_run by exact H1. exact H2.
  - erewrite try_except_raise; [reflexivity|].
    erewrite bind_run; [|erewrite bind_run by exact H1; exact H2].
    apply bind_raise. exact H3.
  - erewrite try_except_raise; [reflexivity|].
    erewrite bind_run; [|erewrite bind_run by exact H1; exact H2].
    erewrite bind_run by exact H3.
    apply bind_raise. exact H4.
  - erewrite try_except_ret; [reflexivity|].
    erewrite bind_run; [|erewrite bind_run by exact H1; exact H2].
    erewrite bind_run by exact H3.
    erewrite bind_run by exact H4. reflexivity.
Qed.

(** C2: [generate_video] returns a result whatever the stages do.  When
    the four stages succeed the result is completed, with the public URL
    and no error; when a stage raises, the result is failed, with no URL
    and the message of what that stage raised. *)
Theorem generate_video_always_returns question w :
  exists r w' o,
    generate_video json_loads render C question w = (Ret r, w')
    /\ stages json_loads render C question (video_id r)
              (record (EUuid4 (video_id r)) w) o w'
    /\ match o with
       | Ret url =>
           status r = "completed" /\ video_url r = Some url /\ error r = None
       | Raise e =>
           status r = "failed" /\ video_url r = None
           /\ error r = Some (str_of_exn e)
       end.
Proof.
  destruct (stages_total question (uuid4 C (log w))
                         (record (EUuid4 (uuid4 C (log w))) w))
    as (o & w' & Hst).
  eexists _, w', o. split; [apply generate_video_by_stages; exact Hst|].
  destruct o as [url|e]; cbn; (split; [exact Hst|]); repeat split.
Qed.

Lemma stages_log question id w0 o w' :
  stages json_loads render C question id w0 o w' -> log_extends w0 w'.
Proof.
  intro Hst.
  inversion Hst; subst;
    repeat match goal with
    | H : generate_explanation _ _ _ _ _ = _ |- _ =>
        apply generate_explanation_log in H
    | H : generate_manim_code _ _ _ _ _ = _ |- _ =>
        apply generate_manim_code_log in H
    | H : execute_manim_code _ _ _ = _ |- _ =>
        apply execute_manim_code_log in H
    | H : upload_to_supabase _ _ _ _ = _ |- _ =>
        apply upload_to_supabase_log in H
    end;
    eauto using log_extends_trans.
Qed.

(** C10: the identifier is drawn first, before any stage has called a
    collaborator, and the result carries it whether the run completed or
    failed.  A completed run has uploaded the artifact under that
    identifier; a failed run has left the bucket as it was. *)
Theorem generate_video_carries_drawn_id question w :
  exists r w' rest,
    generate_video json_loads render C question w = (Ret r, w')
    /\ video_id r = uuid4 C (log w)
    /\ log w' = log w ++ EUuid4 (video_id r) :: rest
    /\ ((status r = "completed"
         /\ exists data,
              In (EStorageUpload (video_id r ++ ".mp4") data) rest)
        \/ (status r = "failed" /\ videos w' = videos w)).
Proof.
  set (id := uuid4 C (log w)).
  destruct (stages_total question id (record (EUuid4 id) w)) as (o & w' & Hst).
  pose proof (generate_video_by_stages question w o w' Hst) as Hrun.
  fold id in Hrun.
  assert (Hframe : forall w3, log_extends (record (EUuid4 id) w) w3 ->
                   forall tail, exists rest,
                     log w3 ++ tail = log w ++ EUuid4 id :: rest
                     /\ forall ev, In ev tail -> In ev rest).
  { intros w3 [r Hr] tail. exists (r ++ tail). split.
    - rewrite Hr. cbn. rewrite <- !app_assoc. reflexivity.
    - intros ev Hin. apply in_or_app. right. exact Hin. }
  inversion Hst as [e w1 H1 | ex e w1 w2 H1 H2 | ex code e w1 w2 w3 H1 H2 H3
                    | ex code art e w1 w2 w3 w4 H1 H2 H3 H4
                    | ex code art url w1 w2 w3 w4 H1 H2 H3 H4]; subst o.
  5: { destruct (upload_to_supabase_run (fst art) id w3)
         as [(e & w5 & Hup & _)|(w5 & Hup & Hlog)]; [congruence|].
       assert (w5 = w') as -> by congruence.
       assert (Hext : log_extends (record (EUuid4 id) w) w3).
       { apply generate_explanation_log in H1.
         apply generate_manim_code_log in H2.
         apply execute_manim_code_log in H3.
         eauto using log_extends_trans. }
       destruct (Hframe w3 Hext [EStorageUpload (id ++ ".mp4") (fst art);
                                 EStoragePublicUrl (id ++ ".mp4")])
         as (rest & Hrest & Hin).
       exists (completed id url), w', rest.
       split; [exact Hrun|]. split; [reflexivity|]. cbn [video_id status completed].
       split; [rewrite Hlog; exact Hrest|].
       left. split; [reflexivity|]. exists (fst art). apply Hin. left. reflexivity. }
  all: destruct (stages_log _ _ _ _ _ Hst) as [rest Hrest];
    exists (failed id e), w', rest;
    (split; [exact Hrun|]); (split; [reflexivity|]);
    cbn [video_id status failed];
    (split; [rewrite Hrest; cbn; rewrite <- app_assoc; reflexivity|]);
    right; (split; [reflexivity|]).
  - apply generate_explanation_videos in H1. exact H1.
  - apply generate_explanation_videos in H1.
    apply generate_manim_code_videos in H2.
    unfold same_videos in *. cbn in *. congruence.
  - apply generate_explanation_videos in H1.
    apply generate_manim_code_videos in H2.
    apply execute_manim_code_videos in H3.
    unfold same_videos in *. cbn in *. congruence.
  - apply generate_explanation_videos in H1.
    apply generate_manim_code_videos in H2.
    apply execute_manim_code_videos in H3.
    destruct (upload_to_supabase_run (fst art) id w3)
      as [(e' & w5 & Hup & Hv)|(w5 & Hup & _)]; [|congruence].
    assert (w5 = w') as -> by congruence.
    unfold same_videos in *. cbn in *. congruence.
Qed.

Lemma count_deletes_record e l :
  count_deletes (l ++ [e])
  = count_deletes l + match e with ESandboxDelete => 1 | _ => 0 end.
Proof.
  unfold count_deletes. rewrite filter_app, length_app.
  destruct e; reflexivity.
Qed.

(** Where [execute_manim_code] deletes the sandbox: on the path that
    returns, and nowhere else (a raise out of the deletion call itself
    apart). *)
Lemma execute_manim_code_deletes code w o w' :
  execute_manim_code C code w = (o, w') ->
  match o with
  | Ret _ => count_deletes (log w') = S (count_deletes (log w))
  | Raise _ =>
      count_deletes (log w') = count_deletes (log w)
      \/ (exists l, sandbox_delete C l <> Ret tt)
  end.
Proof.
  unfold execute_manim_code, bind, daytona_create, process_exec,
    sandbox_delete_call, lift, raise, ret.
  intro H.
  repeat match type of H with
  | context [match ?x with _ => _ end] =>
      let E := fresh "E" in destruct x eqn:E
  | context [if ?b then _ else _] =>
      let E := fresh "E" in destruct b eqn:E
  end;
  inversion H; subst; clear H; cbn [log record];
  rewrite ?count_deletes_record; cbn;
  try (left; lia); try lia.
  right. eexists. intro Hd.
  match goal with E : sandbox_delete _ _ = Raise _ |- _ =>
    rewrite Hd in E; discriminate E end.
Qed.

End VideoPipeline.

(** C1 fails on the code: when the output file is not found, and when the
    retrieved text does not decode, [execute_manim_code] raises with the
    sandbox created and never deleted. *)
Theorem execute_manim_code_leaks_sandbox :
  (exists w',
     execute_manim_code no_output "from manim import *" empty_world
     = (Raise (Exception
         "Video not found. Code verify: 12 scene.py. Render: ModuleNotFoundError: No module named 'numpy'"),
        w')
     /\ In (ESandboxCreate "manim-voiceover-v4") (log w')
     /\ count_deletes (log w') = 0)
  /\ (exists w',
        execute_manim_code corrupt_artifact "from manim import *" empty_world
        = (Raise (BinasciiError
            "Invalid base64-encoded string: number of data characters (1) cannot be 1 more than a multiple of 4"),
           w')
        /\ In (ESandboxCreate "manim-voiceover-v4") (log w')
        /\ count_deletes (log w') = 0).
Proof.
  split; eexists; (split; [vm_compute; reflexivity|]);
    (split; [left; reflexivity | reflexivity]).
Qed.

Example execute_manim_code_success_deletes_once :
  exists w',
    execute_manim_code rendered "from manim import *" empty_world
    = (Ret ([x01; x02; x03; x04], "File ready"), w')
    /\ count_deletes (log w') = 1.
Proof. eexists. split; [vm_compute; reflexivity | reflexivity]. Qed.

Example generate_video_scenarios :
  (exists w',
     generate_video json_decode show_template rendered (VStr "12 / 3 = ?") empty_world
     = (Ret (completed "22222222-2222-4222-8222-222222222222"
               "https://storage.example/videos/22222222-2222-4222-8222-222222222222.mp4"),
        w'))
  /\ (exists w' msg,
        generate_video json_decode show_template
          (script ["22222222-2222-4222-8222-222222222222"] noon
             [Ret (json_text "{'explanation': 'Share 12 among 3.'}"); Ret "code"]
             [Ret EmptyString; Ret "1 scene.py"; Ret "render log"; Ret EmptyString] (Ret tt))
          (VStr "12 / 3 = ?") empty_world
        = (Ret {| video_id := "22222222-2222-4222-8222-222222222222";
                  status := "failed"; video_url := None; error := Some msg |}, w')
        /\ msg = "Video not found. Code verify: 1 scene.py. Render: render log").
Proof.
  split.
  - eexists. vm_compute. reflexivity.
  - eexists _, _. split; [vm_compute; reflexivity | reflexivity].
Qed.

(** ** The text-safe transport *)

Lemma all_bytes_complete (b : byte) : In b all_bytes.
Proof.
  assert (H : existsb (Byte.eqb b) all_bytes = true)
    by (destruct b; vm_compute; reflexivity).
  apply existsb_exists in H. destruct H as (b' & Hin & Heq).
  apply Byte.byte_dec_bl in Heq. subst b'. exact Hin.
Qed.

Lemma for_all_bytes (p : byte -> bool) :
  forallb p all_bytes = true -> forall b, p b = true.
Proof.
  intros H b. rewrite forallb_forall in H. apply H. apply all_bytes_complete.
Qed.

Lemma for_all_byte_pairs (p : byte -> byte -> bool) :
  forallb (fun a => forallb (p a) all_bytes) all_bytes = true ->
  forall a b, p a b = true.
Proof.
  intros H a b. apply (for_all_bytes (p a)). apply (for_all_bytes _ H a).
Qed.

Lemma for_all_sextets (p : N -> bool) :
  forallb p (map N.of_nat (seq 0 64)) = true ->
  forall n, (n < 64)%N -> p n = true.
Proof.
  intros H n Hn. rewrite forallb_forall in H. apply H.
  apply in_map_iff. exists (N.to_nat n). split; [apply N2Nat.id|].
  apply in_seq. lia.
Qed.

(** An alphabet character decodes to the six bits it stands for, and
    passes the channel unharmed. *)
Lemma sextet_char (n : N) :
  (n < 64)%N ->
  table_a2b_base64 (b64_char n) = Some n
  /\ Ascii.eqb (b64_char n) pad_char = false
  /\ transport_safe (b64_char n) = true.
Proof.
  intro Hn.
  assert (H : (match table_a2b_base64 (b64_char n) with
               | Some m => N.eqb m n
               | None => false
               end
               && negb (Ascii.eqb (b64_char n) pad_char)
               && transport_safe (b64_char n))%bool = true).
  { revert n Hn. apply for_all_sextets. vm_compute. reflexivity. }
  apply andb_prop in H. destruct H as [H Hsafe].
  apply andb_prop in H. destruct H as [Htab Hpad].
  destruct (table_a2b_base64 (b64_char n)) as [m|]; [|discriminate].
  apply N.eqb_eq in Htab. subst m.
  apply negb_true_iff in Hpad. repeat split; assumption.
Qed.

Lemma a2b_base64_sextet (n : N) rest quad_pos leftchar pads out :
  (n < 64)%N ->
  a2b_base64 (b64_char n :: rest) quad_pos leftchar pads out
  = match quad_pos with
    | 0 => a2b_base64 rest 1 n 0 out
    | 1 => a2b_base64 rest 2 (N.land n 15) 0
             (byte_of_N (N.lor (N.shiftl leftchar 2) (N.shiftr n 4)) :: out)
    | 2 => a2b_base64 rest 3 (N.land n 3) 0
             (byte_of_N (N.lor (N.shiftl leftchar 4) (N.shiftr n 2)) :: out)
    | _ => a2b_base64 rest 0 0 0
             (byte_of_N (N.lor (N.shiftl leftchar 6) n) :: out)
    end.
Proof.
  intro Hn. destruct (sextet_char n Hn) as (Htab & Hpad & _).
  cbn [a2b_base64]. rewrite Hpad, Htab. reflexivity.
Qed.

Lemma a2b_base64_first n rest leftchar pads out :
  (n < 64)%N ->
  a2b_base64 (b64_char n :: rest) 0 leftchar pads out = a2b_base64 rest 1 n 0 out.
Proof. intro Hn. rewrite a2b_base64_sextet by exact Hn. reflexivity. Qed.

Lemma a2b_base64_second n rest leftchar pads out :
  (n < 64)%N ->
  a2b_base64 (b64_char n :: rest) 1 leftchar pads out
  = a2b_base64 rest 2 (N.land n 15) 0
      (byte_of_N (N.lor (N.shiftl leftchar 2) (N.shiftr n 4)) :: out).
Proof. intro Hn. rewrite a2b_base64_sextet by exact Hn. reflexivity. Qed.

Lemma a2b_base64_third n rest leftchar pads out :
  (n < 64)%N ->
  a2b_base64 (b64_char n :: rest) 2 leftchar pads out
  = a2b_base64 rest 3 (N.land n 3) 0
      (byte_of_N (N.lor (N.shiftl leftchar 4) (N.shiftr n 2)) :: out).
Proof. intro Hn. rewrite a2b_base64_sextet by exact Hn. reflexivity. Qed.

Lemma a2b_base64_fourth n rest leftchar pads out :
  (n < 64)%N ->
  a2b_base64 (b64_char n :: rest) 3 leftchar pads out
  = a2b_base64 rest 0 0 0
      (byte_of_N (N.lor (N.shiftl leftchar 6) n) :: out).
Proof. intro Hn. rewrite a2b_base64_sextet by exact Hn. reflexivity. Qed.

(** The bit arithmetic of one group, for a byte [p] and the byte [q] that
    follows it: the six-bit values the encoder cuts are in range, and the
    decoder's shifts put the bytes back together. *)
Lemma group_arithmetic (p q : byte) :
  let u := Byte.to_N p in
  let v := Byte.to_N q in
  let hi := N.shiftr u 2 in
  let mid := N.lor (N.shiftl (N.land u 3) 4) (N.shiftr v 4) in
  let low := N.lor (N.shiftl (N.land u 15) 2) (N.shiftr v 6) in
  let last := N.land v 63 in
  let mid_end := N.shiftl (N.land u 3) 4 in
  let low_end := N.shiftl (N.land u 15) 2 in
  ((hi < 64 /\ mid < 64 /\ low < 64 /\ last < 64 /\ mid_end < 64 /\ low_end < 64)
   /\ (N.land mid 15 = N.shiftr v 4 /\ N.land low 3 = N.shiftr v 6))%N
  /\ byte_of_N (N.lor (N.shiftl hi 2) (N.shiftr mid 4)) = p
  /\ byte_of_N (N.lor (N.shiftl (N.shiftr u 4) 4) (N.shiftr low 2)) = p
  /\ byte_of_N (N.lor (N.shiftl (N.shiftr v 6) 6) last) = q
  /\ byte_of_N (N.lor (N.shiftl hi 2) (N.shiftr mid_end 4)) = p
  /\ byte_of_N (N.lor (N.shiftl (N.shiftr u 4) 4) (N.shiftr low_end 2)) = p.
Proof.
  intros u v hi mid low last mid_end low_end.
  assert (H : ((hi <? 64)%N && (mid <? 64)%N && (low <? 64)%N && (last <? 64)%N
               && (mid_end <? 64)%N && (low_end <? 64)%N
               && (N.land mid 15 =? N.shiftr v 4)%N
               && (N.land low 3 =? N.shiftr v 6)%N
               && Byte.eqb (byte_of_N (N.lor (N.shiftl hi 2) (N.shiftr mid 4))) p
               && Byte.eqb (byte_of_N (N.lor (N.shiftl (N.shiftr u 4) 4)
                                             (N.shiftr low 2))) p
               && Byte.eqb (byte_of_N (N.lor (N.shiftl (N.shiftr v 6) 6) last)) q
               && Byte.eqb (byte_of_N (N.lor (N.shiftl hi 2)
                                             (N.shiftr mid_end 4))) p
               && Byte.eqb (byte_of_N (N.lor (N.shiftl (N.shiftr u 4) 4)
                                             (N.shiftr low_end 2))) p)%bool = true).
  { subst u v hi mid low last mid_end low_end. revert p q.
    apply for_all_byte_pairs. vm_compute. reflexivity. }
  repeat match type of H with
         | (_ && _)%bool = true =>
             let H' := fresh "Hb" in
             apply andb_prop in H; destruct H as [H H']
         end.
  repeat match goal with
         | Hb : Byte.eqb _ _ = true |- _ => apply Byte.byte_dec_bl in Hb
         | Hb : (_ <? _)%N = true |- _ => apply N.ltb_lt in Hb
         | Hb : (_ =? _)%N = true |- _ => apply N.eqb_eq in Hb
         end.
  repeat split; assumption.
Qed.

Lemma list_ind3 {A} (P : list A -> Prop) :
  P [] -> (forall a, P [a]) -> (forall a b, P [a; b]) ->
  (forall a b c l, P l -> P (a :: b :: c :: l)) ->
  forall l, P l.
Proof.
  intros H0 H1 H2 H3.
  fix IH 1. intros [|a [|b [|c l]]];
    [apply H0 | apply H1 | apply H2 | apply H3; apply IH].
Qed.

(** The decoder undoes the encoder, group by group. *)
Lemma a2b_base64_b64encode (bs : list byte) :
  forall leftchar out,
    a2b_base64 (b64encode_chars bs) 0 leftchar 0 out = Ret (rev out ++ bs).
Proof.
  induction bs as [|a|a b|a b c rest IH] using list_ind3; intros leftchar out.
  - cbn. rewrite app_nil_r. reflexivity.
  - destruct (group_arithmetic a a)
      as (((Hhi & _ & _ & _ & Hmid & _) & _) & _ & _ & _ & Ha & _).
    cbn [b64encode_chars].
    rewrite a2b_base64_first by exact Hhi.
    rewrite a2b_base64_second by exact Hmid.
    rewrite Ha. reflexivity.
  - destruct (group_arithmetic a b)
      as (((Hhi & Hmid & _) & Hnib & _) & Ha & _).
    destruct (group_arithmetic b b)
      as (((_ & _ & _ & _ & _ & Hlow) & _) & _ & _ & _ & _ & Hb).
    cbn [b64encode_chars].
    rewrite a2b_base64_first by exact Hhi.
    rewrite a2b_base64_second by exact Hmid.
    rewrite a2b_base64_third by exact Hlow.
    rewrite Ha, Hnib, Hb. cbn. rewrite <- app_assoc. reflexivity.
  - destruct (group_arithmetic a b)
      as (((Hhi & Hmid & _) & Hnib & _) & Ha & _).
    destruct (group_arithmetic b c)
      as (((_ & _ & Hlow & Hlast & _) & _ & Hcrumb) & _ & Hb & Hc & _).
    cbn [b64encode_chars].
    rewrite a2b_base64_first by exact Hhi.
    rewrite a2b_base64_second by exact Hmid.
    rewrite a2b_base64_third by exact Hlow.
    rewrite a2b_base64_fourth by exact Hlast.
    rewrite Ha, Hnib, Hb, Hcrumb, Hc, IH.
    cbn. rewrite <- !app_assoc. reflexivity.
Qed.

Lemma b64encode_transport_safe (bs : list byte) :
  forallb transport_safe (b64encode_chars bs) = true.
Proof.
  induction bs as [|a|a b|a b c rest IH] using list_ind3.
  - reflexivity.
  - destruct (group_arithmetic a a) as (((Hhi & _ & _ & _ & Hmid & _) & _) & _).
    cbn [b64encode_chars forallb].
    rewrite (proj2 (proj2 (sextet_char _ Hhi))),
            (proj2 (proj2 (sextet_char _ Hmid))). reflexivity.
  - destruct (group_arithmetic a b) as (((Hhi & Hmid & _) & _) & _).
    destruct (group_arithmetic b b) as (((_ & _ & _ & _ & _ & Hlow) & _) & _).
    cbn [b64encode_chars forallb].
    rewrite (proj2 (proj2 (sextet_char _ Hhi))),
            (proj2 (proj2 (sextet_char _ Hmid))),
            (proj2 (proj2 (sextet_char _ Hlow))). reflexivity.
  - destruct (group_arithmetic a b) as (((Hhi & Hmid & _) & _) & _).
    destruct (group_arithmetic b c) as (((_ & _ & Hlow & Hlast & _) & _) & _).
    cbn [b64encode_chars forallb].
    rewrite (proj2 (proj2 (sextet_char _ Hhi))),
            (proj2 (proj2 (sextet_char _ Hmid))),
            (proj2 (proj2 (sextet_char _ Hlow))),
            (proj2 (proj2 (sextet_char _ Hlast))), IH. reflexivity.
Qed.

Lemma transport_safe_parts (c : ascii) :
  transport_safe c = true ->
  is_b64_text_char c = true /\ is_ascii_char c = true
  /\ is_space c = false /\ Ascii.eqb c nl = false.
Proof.
  unfold transport_safe. intro H.
  apply andb_prop in H. destruct H as [H Hnl].
  apply andb_prop in H. destruct H as [H Hsp].
  apply andb_prop in H. destruct H as [Htext Hascii].
  apply negb_true_iff in Hnl, Hsp. repeat split; assumption.
Qed.

Lemma forallb_transport_safe (p : ascii -> bool) (cs : list ascii) :
  (forall c, transport_safe c = true -> p c = true) ->
  forallb transport_safe cs = true -> forallb p cs = true.
Proof.
  intros Hp H. rewrite forallb_forall in *. intros c Hc. apply Hp, H, Hc.
Qed.

(** Deleting the newlines gives back the text that was wrapped. *)
Lemma tr_d_newline_wrap_lines (width : nat) (cs : list ascii) :
  forallb transport_safe cs = true ->
  forall col, tr_d_newline (wrap_lines width col cs) = cs.
Proof.
  unfold tr_d_newline.
  induction cs as [|c rest IH]; intros Hsafe col.
  - cbn. destruct (col =? 0); reflexivity.
  - cbn in Hsafe. apply andb_prop in Hsafe. destruct Hsafe as [Hc Hrest].
    destruct (transport_safe_parts c Hc) as (_ & _ & _ & Hnl).
    cbn [wrap_lines]. destruct (col =? width); cbn [filter].
    + replace (Ascii.eqb nl nl) with true by reflexivity. cbn [negb].
      rewrite Hnl. cbn [negb]. rewrite IH by exact Hrest. reflexivity.
    + rewrite Hnl. cbn [negb]. rewrite IH by exact Hrest. reflexivity.
Qed.

Lemma lstrip_chars_no_space (cs : list ascii) :
  forallb transport_safe cs = true -> lstrip_chars cs = cs.
Proof.
  destruct cs as [|c rest]; [reflexivity|]. cbn. intro H.
  apply andb_prop in H. destruct H as [Hc _].
  destruct (transport_safe_parts c Hc) as (_ & _ & Hsp & _).
  rewrite Hsp. reflexivity.
Qed.

Lemma strip_chars_no_space (cs : list ascii) :
  forallb transport_safe cs = true -> strip_chars cs = cs.
Proof.
  intro H. unfold strip_chars, rstrip_chars.
  rewrite (lstrip_chars_no_space cs H).
  rewrite lstrip_chars_no_space; [apply rev_involutive|].
  rewrite forallb_forall in *. intros c Hc. apply H, in_rev, Hc.
Qed.

(** C5: what the orchestrator decodes from the sandbox's text-safe
    encoding of a byte sequence is that byte sequence. *)
Theorem decode_textSafeEncode (bs : list byte) :
  decode_artifact (textSafeEncode bs) = Ret bs.
Proof.
  pose proof (b64encode_transport_safe bs) as Hsafe.
  unfold decode_artifact, textSafeEncode, base64_tool, strip, str_filter,
    b64decode.
  rewrite (tr_d_newline_wrap_lines 76 _ Hsafe).
  rewrite ?list_ascii_of_string_of_list_ascii.
  rewrite (strip_chars_no_space _ Hsafe).
  rewrite ?list_ascii_of_string_of_list_ascii.
  rewrite forallb_filter_id
    by (revert Hsafe; apply forallb_transport_safe;
        intros c Hc; apply (transport_safe_parts c Hc)).
  rewrite ?list_ascii_of_string_of_list_ascii.
  rewrite (forallb_transport_safe is_ascii_char _
             (fun c Hc => proj1 (proj2 (transport_safe_parts c Hc))) Hsafe).
  apply (a2b_base64_b64encode bs 0%N []).
Qed.

Example artifact_survives_line_wrapping :
  let bs := repeat x61 100 in
  List.length (filter (Ascii.eqb nl) (base64_tool bs)) = 2
  /\ decode_artifact (string_of_list_ascii (base64_tool bs)) = Ret bs.
Proof. split; vm_compute; reflexivity. Qed.

(** ** Structured-output recovery *)

Section Recovery.

Variable json_loads : string -> outcome value.









End Recovery.


Example parse_with_recovery_recovers :
  parse_with_recovery json_decode
    (strip_fences (json_text "```json
{'question': 'What is 84 / 4?'}
```"))
  = Ret (VDict [("question", VStr "What is 84 / 4?")])
  /\ parse_with_recovery json_decode
       (strip_fences (json_text "Here is your question:
{'question': 'What is 84 / 4?'}"))
     = Ret (VDict [("question", VStr "What is 84 / 4?")])
  /\ parse_with_recovery json_decode
       (strip_fences (json_text "Sure: {'question': 'What is 84 / 4?'} Good luck!"))
     = Ret (VDict [("question", VStr "What is 84 / 4?")])
  /\ parse_with_recovery json_decode (strip_fences (json_text "{'a': '}{'} ok"))
     = Ret (VDict [("a", VStr "}{")])
  /\ parse_with_recovery json_decode (strip_fences "I cannot help with that.")
     = Raise (JSONDecodeError "Expecting value").
Proof. repeat split; vm_compute; reflexivity. Qed.

(** Prose with a brace of its own does no harm on a line before the
    object: the suffix of the line sequence from line 1 parses. *)
Example parse_with_recovery_prose_line_before :
  parse_with_recovery json_decode
    (strip_fences (json_text "Use {braces} here:
{'a': 1}"))
  = Ret (VDict [("a", VInt 1)]).
Proof. vm_compute; reflexivity. Qed.

(** When the direct parse succeeds, the four call sites read the same
    value. *)
Lemma call_sites_agree_on_direct_parse json_loads text v :
  json_loads text = Ret v ->
  parse_with_recovery json_loads text = Ret v
  /\ parse_hint json_loads text
     = match dict_get v "hint" (VStr default_hint) with
       | Ret h => h
       | Raise _ => VStr default_hint
       end.
Proof.
  intro H. unfold parse_with_recovery, parse_hint. rewrite H.
  split; reflexivity.
Qed.

(** C4 fails on the code: on an answer that starts with a sentence, the
    question and validation sites recover the object from the second
    line, the explanation site raises the parse error, and the hint site
    falls back to the default hint although the object has one. *)
Theorem explanation_and_hint_skip_recovery :
  let object := VDict [("explanation", VStr "Share 12 among 3.");
                       ("hint", VStr "Start with 12.")] in
  (exists w', generate_next_question json_decode show_template chatty
                "Long Division" 1 [] empty_world = (Ret object, w'))
  /\ (exists w', validate_answer json_decode show_template chatty
                   (VStr "12 / 3 = ?") "5" empty_world = (Ret object, w'))
  /\ (exists w', generate_explanation json_decode show_template chatty
                   (VStr "12 / 3 = ?") empty_world
                 = (Raise (JSONDecodeError "Expecting value"), w'))
  /\ (exists w', generate_hint json_decode show_template chatty
                   (VStr "12 / 3 = ?") "5" empty_world
                 = (Ret (VStr default_hint), w')).
Proof.
  repeat split; eexists; vm_compute; reflexivity.
Qed.

(** * Further properties *)

(** ** Question engine: failures and what a run changes *)

Section QuestionEngineEffects.

Variable json_loads : string -> outcome value.
Variable py_str : value -> string.
Variable render : string -> list (string * value) -> string.
Variable C : collaborators.

Lemma single_run {A} (rows : list A) w o w' :
  single rows w = (o, w') ->
  w' = w
  /\ match o with
     | Ret r => rows = [r]
     | Raise e =>
         List.length rows <> 1
         /\ e = APIError "JSON object requested, multiple (or no) rows returned"
     end.
Proof.
  unfold single, ret, raise.
  destruct rows as [|r [|r' rest]]; intro H; inversion H; subst;
    (split; [reflexivity|]); cbn; try reflexivity; split; try reflexivity; lia.
Qed.

Lemma validate_answer_run question answer w o w' :
  validate_answer json_loads render C question answer w = (o, w') ->
  exists content,
    w' = record (ECompletion haiku 1024 content) w.
Proof.
  unfold validate_answer, bind, completion, lift. intro H.
  destruct (messages_create C (log w) haiku 1024 _) as [text|e];
    inversion H; subst; eexists; reflexivity.
Qed.

Lemma generate_hint_run question answer w o w' :
  generate_hint json_loads render C question answer w = (o, w') ->
  exists content,
    w' = record (ECompletion haiku 512 content) w
    /\ match o with
       | Ret hint =>
           exists text,
             messages_create C (log w) haiku 512 content = Ret text
             /\ hint = parse_hint json_loads (strip_fences text)
       | Raise e => messages_create C (log w) haiku 512 content = Raise e
       end.
Proof.
  unfold generate_hint, bind, completion, ret. intro H.
  destruct (messages_create C (log w) haiku 512 _) as [text|e] eqn:E;
    inversion H; subst; eexists; (split; [reflexivity|]).
  - exists text. split; [exact E | reflexivity].
  - exact E.
Qed.

Lemma choose_feedback_effects question answer validation n w o w' :
  choose_feedback json_loads py_str render C question answer validation n w
  = (o, w') ->
  w' = w
  \/ (exists correct content,
        subscript validation "correct" = Ret correct
        /\ truthy correct = false /\ n = 2%Z
        /\ w' = record (ECompletion haiku 512 content) w).
Proof.
  unfold choose_feedback, bind, lift, ret. intro H.
  destruct (subscript validation "correct") as [correct|e] eqn:Ec;
    [|inversion H; left; reflexivity].
  destruct (truthy correct) eqn:Ht.
  { inversion H. left. reflexivity. }
  destruct (Z.eqb_spec n 1); [inversion H; left; reflexivity|].
  destruct (Z.eqb_spec n 2) as [->|].
  - destruct (generate_hint json_loads render C question answer w)
      as [[hint|e] w1] eqn:Eh.
    + destruct (generate_hint_run _ _ _ _ _ Eh) as (content & -> & _).
      inversion H; subst. right. exists correct, content. auto.
    + destruct (generate_hint_run _ _ _ _ _ Eh) as (content & -> & _).
      inversion H; subst. right. exists correct, content. auto.
  - destruct (subscript validation "feedback");
      inversion H; left; reflexivity.
Qed.

Lemma update_matches_count_attempt question_id q rows :
  filter (fun r => String.eqb (q_id r) question_id) rows = [q] ->
  map (fun r => if String.eqb (q_id r) question_id
                then set_attempts (q_attempts q + 1) r else r) rows
  = count_attempt question_id rows.
Proof.
  intro Hf. unfold count_attempt. apply map_ext_in. intros r Hin.
  destruct (String.eqb (q_id r) question_id) eqn:E; [|reflexivity].
  assert (Hr : In r (filter (fun r => String.eqb (q_id r) question_id) rows)).
  { apply filter_In. split; assumption. }
  rewrite Hf in Hr. destruct Hr as [->|[]]. reflexivity.
Qed.

(** How far a run of [validate_user_answer] got: the lookup failed, the
    judgement failed, or the attempt was counted. *)
Lemma validate_user_answer_phases session_id question_id answer w o w' :
  validate_user_answer json_loads py_str render C session_id question_id answer w
  = (o, w') ->
  (List.length (filter (fun r => String.eqb (q_id r) question_id) (questions w)) <> 1
   /\ w' = w
   /\ o = Raise (APIError "JSON object requested, multiple (or no) rows returned"))
  \/ (exists q e,
        filter (fun r => String.eqb (q_id r) question_id) (questions w) = [q]
        /\ validate_answer json_loads render C (q_question q) answer w
           = (Raise e, w')
        /\ o = Raise e)
  \/ (exists q validation w1 w2,
        filter (fun r => String.eqb (q_id r) question_id) (questions w) = [q]
        /\ validate_answer json_loads render C (q_question q) answer w
           = (Ret validation, w1)
        /\ w2 = with_questions (count_attempt question_id (questions w)) w1
        /\ (w' = w2
            \/ exists correct content,
                 subscript validation "correct" = Ret correct
                 /\ truthy correct = false
                 /\ (q_attempts q + 1 = 2)%Z
                 /\ w' = record (ECompletion haiku 512 content) w2)
        /\ forall r, o = Ret r ->
             ar_attempts r = (q_attempts q + 1)%Z
             /\ subscript validation "correct" = Ret (ar_correct r)).
Proof.
  unfold validate_user_answer. intro H. unfold bind at 1 in H.
  destruct (select_question question_id w) as [[q|e] w0] eqn:Es.
  2: { left. unfold select_question in Es.
       destruct (single_run _ _ _ _ Es) as (-> & Hlen & ->).
       inversion H; subst. repeat split; auto. }
  unfold select_question in Es.
  destruct (single_run _ _ _ _ Es) as (-> & Hrows).
  right. unfold bind at 1 in H.
  destruct (validate_answer json_loads render C (q_question q) answer w)
    as [[validation|e] w1] eqn:Ev.
  2: { left. inversion H; subst. exists q, e. repeat split; auto. }
  right.
  destruct (validate_answer_run _ _ _ _ _ Ev) as (content & Hw1).
  unfold bind at 1 in H. unfold update_attempts at 1 in H.
  assert (Hq1 : questions w1 = questions w) by (subst w1; reflexivity).
  rewrite Hq1, (update_matches_count_attempt _ _ _ Hrows) in H.
  exists q, validation, w1, (with_questions (count_attempt question_id (questions w)) w1).
  split; [exact Hrows|]. split; [exact Ev|]. split; [reflexivity|].
  unfold bind at 1 in H.
  destruct (choose_feedback json_loads py_str render C (q_question q) answer
              validation (q_attempts q + 1) _) as [[fb|e] w3] eqn:Ef.
  all: assert (Heff :
         w3 = with_questions (count_attempt question_id (questions w)) w1
         \/ exists correct content,
              subscript validation "correct" = Ret correct
              /\ truthy correct = false
              /\ (q_attempts q + 1 = 2)%Z
              /\ w3 = record (ECompletion haiku 512 content)
                         (with_questions
                            (count_attempt question_id (questions w)) w1))
    by (destruct (choose_feedback_effects _ _ _ _ _ _ _ Ef)
          as [->|(c' & content' & Hc' & Hw & Hn & ->)];
        [left; reflexivity | right; exists c', content'; repeat split; auto]).
  - unfold bind, lift, ret in H.
    destruct (subscript validation "correct") as [c|e] eqn:Ec;
      inversion H; subst; (split; [exact Heff|]); intros r Hr.
    + inversion Hr; subst. cbn. auto.
    + discriminate Hr.
  - inversion H; subst. split; [exact Heff|]. intros r Hr. discriminate Hr.
Qed.

(** X1: an answer for a question id that is not stored exactly once is
    refused before anything happens: no completion call, no attempt
    counted. *)
Theorem validate_user_answer_unknown_question session_id question_id answer w :
  List.length (filter (fun r => String.eqb (q_id r) question_id) (questions w)) <> 1 ->
  validate_user_answer json_loads py_str render C session_id question_id answer w
  = (Raise (APIError "JSON object requested, multiple (or no) rows returned"), w).
Proof.
  intro Hlen. unfold validate_user_answer, bind, select_question, single.
  destruct (filter _ (questions w)) as [|q [|q' rest]]; cbn in *;
    try reflexivity. lia.
Qed.

(** X2: a run that returns has counted the attempt on the one row with
    that id and has left every other row, and the number of rows, as they
    were. *)
Theorem validate_user_answer_counts_attempt session_id question_id answer w r w' :
  validate_user_answer json_loads py_str render C session_id question_id answer w
  = (Ret r, w') ->
  exists q,
    filter (fun r => String.eqb (q_id r) question_id) (questions w) = [q]
    /\ ar_attempts r = (q_attempts q + 1)%Z
    /\ questions w' = count_attempt question_id (questions w)
    /\ In (set_attempts (ar_attempts r) q) (questions w')
    /\ (forall other, In other (questions w) -> q_id other <> question_id ->
        In other (questions w'))
    /\ List.length (questions w') = List.length (questions w)
    /\ sessions w' = sessions w /\ videos w' = videos w.
Proof.
  intro H.
  destruct (validate_user_answer_phases _ _ _ _ _ _ H)
    as [(_ & _ & Ho)|[(q & e & _ & _ & Ho)|(q & validation & w1 & w2 & Hrows
                                            & Hv & -> & Hw' & Hr)]];
    try discriminate Ho.
  destruct (Hr r eq_refl) as [Hn _].
  destruct (validate_answer_run _ _ _ _ _ Hv) as (content & ->).
  assert (Hq : questions w' = count_attempt question_id (questions w)
               /\ sessions w' = sessions w /\ videos w' = videos w).
  { destruct Hw' as [->|(c & content' & _ & _ & _ & ->)]; repeat split. }
  destruct Hq as (Hq & Hs & Hvid).
  exists q. split; [exact Hrows|]. split; [exact Hn|]. split; [exact Hq|].
  assert (Hin : In q (questions w) /\ String.eqb (q_id q) question_id = true).
  { apply (proj1 (filter_In (fun r => String.eqb (q_id r) question_id)
                            q (questions w))).
    rewrite Hrows. left. reflexivity. }
  destruct Hin as (Hin & Hid).
  rewrite Hq. unfold count_attempt. repeat split.
  - apply in_map_iff. exists q. rewrite Hid, Hn. split; [reflexivity | exact Hin].
  - intros other Ho Hne. apply in_map_iff. exists other.
    split; [|exact Ho].
    destruct (String.eqb_spec (q_id other) question_id); [contradiction | reflexivity].
  - apply length_map.
  - exact Hs.
  - exact Hvid.
Qed.

(** X3: when the judgement of the answer fails (the completion call or
    the parsing of its text), the failure is passed on and no attempt is
    counted. *)
Theorem validate_user_answer_failed_judgement session_id question_id answer w q e w1 :
  filter (fun r => String.eqb (q_id r) question_id) (questions w) = [q] ->
  validate_answer json_loads render C (q_question q) answer w = (Raise e, w1) ->
  validate_user_answer json_loads py_str render C session_id question_id answer w
  = (Raise e, w1)
  /\ questions w1 = questions w.
Proof.
  intros Hrows Hv. split.
  - unfold validate_user_answer.
    erewrite bind_run
      by (unfold select_question; rewrite Hrows; reflexivity).
    apply bind_raise. exact Hv.
  - destruct (validate_answer_run _ _ _ _ _ Hv) as (content & ->). reflexivity.
Qed.

(** X4: once the judgement has been obtained and the update of the
    question's row has gone through, the table is the one the update left,
    with the attempt counted, however the rest of the run goes: also when
    it then fails (a failing hint call, a judgement without the expected
    keys).  The hypothesis on [update_attempts] is the success of the store
    call at questions.py 59-61; a run in which that call raises is not
    covered. *)
Theorem validate_user_answer_counts_before_feedback
        session_id question_id answer w q validation w1 w2 o w' :
  filter (fun r => String.eqb (q_id r) question_id) (questions w) = [q] ->
  validate_answer json_loads render C (q_question q) answer w
  = (Ret validation, w1) ->
  update_attempts question_id (q_attempts q + 1) w1 = (Ret tt, w2) ->
  validate_user_answer json_loads py_str render C session_id question_id answer w
  = (o, w') ->
  questions w' = questions w2
  /\ questions w2 = count_attempt question_id (questions w).
Proof.
  intros Hrows Hv Hu H.
  assert (Hw2 : questions w2 = count_attempt question_id (questions w)).
  { unfold update_attempts in Hu. inversion Hu; subst w2. cbn.
    destruct (validate_answer_run _ _ _ _ _ Hv) as (content & ->). cbn.
    apply (update_matches_count_attempt _ _ _ Hrows). }
  split; [|exact Hw2]. rewrite Hw2.
  destruct (validate_user_answer_phases _ _ _ _ _ _ H)
    as [(Hlen & _)|[(q' & e & Hrows' & Hv' & _)
                   |(q' & validation' & w1' & w2' & _ & _ & -> & Hw' & _)]].
  - rewrite Hrows in Hlen. cbn in Hlen. lia.
  - rewrite Hrows in Hrows'. inversion Hrows'; subst q'. congruence.
  - destruct Hw' as [->|(c & content' & _ & _ & _ & ->)]; reflexivity.
Qed.

Lemma count_completions_record e l :
  count_completions (l ++ [e])
  = count_completions l + if is_completion e then 1 else 0.
Proof.
  unfold count_completions. rewrite filter_app, length_app. cbn.
  destruct (is_completion e); reflexivity.
Qed.

Lemma choose_feedback_calls question answer validation n w fb w' correct :
  choose_feedback json_loads py_str render C question answer validation n w
  = (Ret fb, w') ->
  subscript validation "correct" = Ret correct ->
  count_completions (log w')
  = count_completions (log w)
    + if negb (truthy correct) && (n =? 2)%Z then 1 else 0.
Proof.
  unfold choose_feedback, bind, lift, ret. intros H Hc. rewrite Hc in H.
  destruct (truthy correct) eqn:Ht; cbn [negb andb].
  { destruct (subscript validation "feedback"); inversion H; subst. lia. }
  destruct (Z.eqb_spec n 1) as [->|]; [inversion H; subst; cbn; lia|].
  destruct (Z.eqb_spec n 2) as [->|].
  - destruct (generate_hint json_loads render C question answer w)
      as [[hint|e] w1] eqn:Eh; [|discriminate H].
    destruct (generate_hint_run _ _ _ _ _ Eh) as (content & -> & _).
    inversion H; subst. cbn [log record].
    rewrite count_completions_record. reflexivity.
  - destruct (subscript validation "feedback"); inversion H; subst. lia.
Qed.

(** X5: a run that returns has called the completion service once for
    the judgement, and a second time, for the hint, exactly when the
    answer is wrong and the attempt is the second; the hint is never asked
    for a correct answer. *)
Theorem validate_user_answer_completion_calls session_id question_id answer w r w' :
  validate_user_answer json_loads py_str render C session_id question_id answer w
  = (Ret r, w') ->
  count_completions (log w')
  = count_completions (log w)
    + if negb (truthy (ar_correct r)) && (ar_attempts r =? 2)%Z then 2 else 1.
Proof.
  unfold validate_user_answer. intro H.
  apply bind_ret_inv in H. destruct H as (q & w0 & Hq & H).
  unfold select_question in Hq.
  destruct (single_run _ _ _ _ Hq) as (-> & _).
  apply bind_ret_inv in H. destruct H as (validation & w1 & Hv & H).
  destruct (validate_answer_run _ _ _ _ _ Hv) as (content & ->).
  apply bind_ret_inv in H. destruct H as ([] & w2 & Hu & H).
  unfold update_attempts in Hu. inversion Hu; subst w2; clear Hu.
  apply bind_ret_inv in H. destruct H as (fb & w3 & Hf & H).
  apply bind_ret_inv in H. destruct H as (c1 & w4 & Hc1 & H).
  apply lift_ret_inv in Hc1. destruct Hc1 as [Hc1 ->].
  apply bind_ret_inv in H. destruct H as (c2 & w5 & Hc2 & H).
  apply lift_ret_inv in Hc2. destruct Hc2 as [Hc2 ->].
  apply ret_inv in H. destruct H as [-> ->].
  rewrite (choose_feedback_calls _ _ _ _ _ _ _ _ Hf Hc1).
  cbn [ar_correct ar_attempts log with_questions record].
  rewrite count_completions_record. cbn.
  destruct (negb (truthy c1) && (q_attempts q + 1 =? 2)%Z); lia.
Qed.

Lemma select_session_run session_id w o w' :
  select_session session_id w = (o, w') ->
  w' = w
  /\ match o with
     | Ret s => filter (fun s => String.eqb (s_id s) session_id) (sessions w) = [s]
     | Raise e =>
         List.length (filter (fun s => String.eqb (s_id s) session_id) (sessions w)) <> 1
         /\ e = APIError "JSON object requested, multiple (or no) rows returned"
     end.
Proof. unfold select_session. apply single_run. Qed.

(** X6: a question for a session id that is not stored exactly once is
    refused before anything happens: no completion call, no identifier
    drawn, no row added. *)
Theorem get_next_question_unknown_session session_id difficulty w :
  List.length (filter (fun s => String.eqb (s_id s) session_id) (sessions w)) <> 1 ->
  get_next_question json_loads render C session_id difficulty w
  = (Raise (APIError "JSON object requested, multiple (or no) rows returned"), w).
Proof.
  intro Hlen. unfold get_next_question, bind, select_session, single.
  destruct (filter _ (sessions w)) as [|s [|s' rest]]; cbn in *;
    try reflexivity. lia.
Qed.

Lemma bind_inv {A B} (m : M A) (k : A -> M B) w o w' :
  bind m k w = (o, w') ->
  (exists e, m w = (Raise e, w') /\ o = Raise e)
  \/ (exists a w1, m w = (Ret a, w1) /\ k a w1 = (o, w')).
Proof.
  unfold bind. destruct (m w) as [[a|e] w1]; intro H.
  - right. exists a, w1. split; [reflexivity | exact H].
  - left. inversion H; subst. exists e. split; reflexivity.
Qed.

Lemma generate_next_question_effects topic difficulty previous w o w' :
  generate_next_question json_loads render C topic difficulty previous w = (o, w') ->
  exists content, w' = record (ECompletion haiku 1024 content) w.
Proof.
  unfold generate_next_question, bind, completion, lift. intro H.
  destruct (messages_create C (log w) haiku 1024 _) as [text|e];
    inversion H; subst; eexists; reflexivity.
Qed.

(** X7: a run of [get_next_question] that raises, at whatever step, has
    stored nothing: the tables and the bucket are as before, and at most
    one completion call was made. *)
Theorem get_next_question_failure_stores_nothing session_id difficulty w e w' :
  get_next_question json_loads render C session_id difficulty w = (Raise e, w') ->
  questions w' = questions w /\ sessions w' = sessions w
  /\ videos w' = videos w
  /\ count_completions (log w') <= S (count_completions (log w)).
Proof.
  unfold get_next_question. intro H.
  apply bind_inv in H.
  destruct H as [(e1 & Hs & _)|(session & w1 & Hs & H)];
    destruct (select_session_run _ _ _ _ Hs) as (Hw & _).
  { rewrite Hw. repeat split. lia. }
  subst w1.
  apply bind_inv in H.
  destruct H as [(e1 & Hq & _)|(prior & w2 & Hq & H)];
    unfold select_session_questions in Hq; inversion Hq; subst prior w2; clear Hq.
  apply bind_inv in H.
  destruct H as [(e1 & Hg & _)|(question_data & w3 & Hg & H)];
    destruct (generate_next_question_effects _ _ _ _ _ _ Hg) as (content & Hw).
  { rewrite Hw. cbn [questions sessions videos log record].
    rewrite count_completions_record. cbn. repeat split. lia. }
  subst w3.
  assert (Hcount : forall id,
            count_completions
              (log (record (EUuid4 id) (record (ECompletion haiku 1024 content) w)))
            <= S (count_completions (log w))).
  { intro id. cbn [log record]. rewrite !count_completions_record. cbn. lia. }
  apply bind_inv in H.
  destruct H as [(e1 & Hid & _)|(id & w4 & Hid & H)];
    unfold new_uuid in Hid; inversion Hid; subst; clear Hid.
  apply bind_inv in H.
  destruct H as [(e1 & Hk & _)|(qtext & w5 & Hk & H)];
    unfold lift in Hk; inversion Hk; subst; clear Hk;
    [repeat split; apply Hcount|].
  apply bind_inv in H.
  destruct H as [(e1 & Hk & _)|(topic & w6 & Hk & H)];
    unfold lift in Hk; inversion Hk; subst; clear Hk;
    [repeat split; apply Hcount|].
  apply bind_inv in H.
  destruct H as [(e1 & Hk & _)|(t & w7 & Hk & H)];
    unfold now in Hk; inversion Hk; subst; clear Hk.
  apply bind_inv in H.
  destruct H as [(e1 & Hk & _)|([] & w8 & Hk & H)];
    unfold insert_question in Hk; inversion Hk; subst; clear Hk.
  apply bind_inv in H.
  destruct H as [(e1 & Hk & _)|(qtext' & w9 & Hk & H)];
    unfold lift in Hk; inversion Hk; subst; clear Hk; [congruence|].
  apply bind_inv in H.
  destruct H as [(e1 & Hk & _)|(topic' & w10 & Hk & H)];
    unfold lift in Hk; inversion Hk; subst; clear Hk; [congruence|].
  unfold ret in H. discriminate H.
Qed.

End QuestionEngineEffects.

Lemma validate_user_answer_unknown_question_witness :
  validate_user_answer json_decode show show_template wrong_answer
                       "s1" "missing" "20" (attempted 0)
  = (Raise (APIError "JSON object requested, multiple (or no) rows returned"),
     attempted 0).
Proof.
  apply validate_user_answer_unknown_question. cbn. lia.
Defined.

Lemma validate_user_answer_counts_attempt_witness :
  exists r w',
    validate_user_answer json_decode show show_template wrong_answer
                         "s1" "c" "20" (attempted 2) = (Ret r, w')
    /\ questions w' = [question "s1" "c" "What is 84 / 4?" 3 1].
Proof.
  eexists _, _. split; [vm_compute; reflexivity|].
  destruct (validate_user_answer_counts_attempt json_decode show show_template
              wrong_answer "s1" "c" "20" (attempted 2) _ _
              ltac:(vm_compute; reflexivity))
    as (q & _ & _ & Hq & _).
  exact Hq.
Defined.

Lemma validate_user_answer_failed_judgement_witness :
  validate_user_answer json_decode show show_template no_completion
                       "s1" "c" "20" (attempted 0)
  = (Raise (Exception "no answer"),
     record (ECompletion haiku 1024
               ("You are a mathematics teaching assistant. Evaluate answers fairly and provide constructive feedback."
                ++ newline ++ newline
                ++ "validate_answer.j2: question=What is 84 / 4?; user_answer=20"))
            (attempted 0)).
Proof.
  apply (validate_user_answer_failed_judgement json_decode show show_template
           no_completion "s1" "c" "20" (attempted 0)
           (question "s1" "c" "What is 84 / 4?" 0 1));
    reflexivity.
Defined.

Lemma validate_user_answer_counts_before_feedback_witness :
  exists w2 w',
    validate_user_answer json_decode show show_template judgement_only
                         "s1" "c" "20" (attempted 1)
    = (Raise (Exception "no answer"), w')
    /\ questions w' = questions w2
    /\ questions w2 = [question "s1" "c" "What is 84 / 4?" 2 1].
Proof.
  do 2 eexists. split; [vm_compute; reflexivity|].
  eapply (validate_user_answer_counts_before_feedback json_decode show
            show_template judgement_only "s1" "c" "20" (attempted 1)
            (question "s1" "c" "What is 84 / 4?" 1 1));
    [reflexivity | vm_compute; reflexivity | reflexivity
     | vm_compute; reflexivity].
Defined.

Lemma validate_user_answer_completion_calls_witness :
  exists r w',
    validate_user_answer json_decode show show_template wrong_answer
                         "s1" "c" "20" (attempted 1) = (Ret r, w')
    /\ count_completions (log w') = 2.
Proof.
  eexists _, _. split; [vm_compute; reflexivity|].
  exact (validate_user_answer_completion_calls json_decode show show_template
           wrong_answer "s1" "c" "20" (attempted 1) _ _
           ltac:(vm_compute; reflexivity)).
Defined.

Lemma get_next_question_unknown_session_witness :
  get_next_question json_decode show_template one_question_answer
                    "s2" None six_questions
  = (Raise (APIError "JSON object requested, multiple (or no) rows returned"),
     six_questions).
Proof.
  apply get_next_question_unknown_session. cbn. lia.
Defined.

Lemma get_next_question_failure_stores_nothing_witness :
  exists w',
    get_next_question json_decode show_template no_question_key
                      "s1" None six_questions
    = (Raise (KeyError "question"), w')
    /\ questions w' = questions six_questions.
Proof.
  eexists. split; [vm_compute; reflexivity|].
  eapply (get_next_question_failure_stores_nothing json_decode show_template
            no_question_key "s1" None six_questions).
  vm_compute. reflexivity.
Defined.

(** ** The transport, beyond the round trip *)

Lemma decode_artifact_safe_text (cs : list ascii) :
  forallb transport_safe cs = true ->
  decode_artifact (string_of_list_ascii cs) = a2b_base64 cs 0 0 0 [].
Proof.
  intro Hsafe. unfold decode_artifact, strip, str_filter, b64decode.
  rewrite ?list_ascii_of_string_of_list_ascii.
  rewrite (strip_chars_no_space _ Hsafe).
  rewrite ?list_ascii_of_string_of_list_ascii.
  rewrite forallb_filter_id
    by (revert Hsafe; apply forallb_transport_safe;
        intros c Hc; apply (transport_safe_parts c Hc)).
  rewrite ?list_ascii_of_string_of_list_ascii.
  rewrite (forallb_transport_safe is_ascii_char _
             (fun c Hc => proj1 (proj2 (transport_safe_parts c Hc))) Hsafe).
  reflexivity.
Qed.

Lemma space_is_filtered (c : ascii) :
  is_space c = true -> is_b64_text_char c = false.
Proof.
  destruct c as [[] [] [] [] [] [] [] []]; vm_compute; intro H;
    first [reflexivity | discriminate H].
Qed.

Lemma filter_lstrip_chars (cs : list ascii) :
  filter is_b64_text_char (lstrip_chars cs) = filter is_b64_text_char cs.
Proof.
  induction cs as [|c cs IH]; [reflexivity|]. cbn.
  destruct (is_space c) eqn:E; [|reflexivity].
  rewrite (space_is_filtered c E). exact IH.
Qed.

Lemma filter_strip_chars (cs : list ascii) :
  filter is_b64_text_char (strip_chars cs) = filter is_b64_text_char cs.
Proof.
  unfold strip_chars, rstrip_chars.
  rewrite filter_rev, filter_lstrip_chars, filter_rev, rev_involutive.
  apply filter_lstrip_chars.
Qed.

Lemma filter_b64encode_chars (bs : list byte) :
  filter is_b64_text_char (b64encode_chars bs) = b64encode_chars bs.
Proof.
  apply forallb_filter_id.
  generalize (b64encode_transport_safe bs). apply forallb_transport_safe.
  intros c Hc. apply (transport_safe_parts c Hc).
Qed.

Lemma decode_artifact_kept_characters (s : string) (bs : list byte) :
  filter is_b64_text_char (list_ascii_of_string s) = b64encode_chars bs ->
  decode_artifact s = Ret bs.
Proof.
  intro H. unfold decode_artifact, strip, str_filter, b64decode.
  rewrite ?list_ascii_of_string_of_list_ascii.
  rewrite filter_strip_chars, H.
  rewrite (forallb_transport_safe is_ascii_char _
             (fun c Hc => proj1 (proj2 (transport_safe_parts c Hc)))
             (b64encode_transport_safe bs)).
  apply (a2b_base64_b64encode bs 0%N []).
Qed.

(** X8: the decoding of the retrieved text looks only at the characters
    the filter keeps: a text whose kept characters are the encoding of a
    byte sequence decodes to that sequence, whatever else (line breaks,
    blanks, punctuation) is mixed in. *)
Theorem decode_artifact_ignores_foreign_characters (s : string) (bs : list byte) :
  filter is_b64_text_char (list_ascii_of_string s) = b64encode_chars bs ->
  decode_artifact s = Ret bs.
Proof. apply decode_artifact_kept_characters. Qed.

Lemma decode_artifact_ignores_foreign_characters_witness :
  decode_artifact "  AQ ID
BA==
" = Ret [x01; x02; x03; x04].
Proof.
  apply decode_artifact_ignores_foreign_characters. reflexivity.
Defined.

(** X9: the program travels to the sandbox as the base64 text of its
    ASCII projection: the text between the quotes of the write command
    decodes to the program without its non-ASCII characters, holds no
    quote, and a program that is all ASCII travels unchanged. *)
Theorem write_command_payload (code : string) :
  let payload := b64encode (bytes_of_str (ascii_projection code)) in
  b64decode payload = Ret (bytes_of_str (ascii_projection code))
  /\ ~ In "'"%char (list_ascii_of_string payload)
  /\ (forallb is_ascii_char (list_ascii_of_string code) = true ->
      ascii_projection code = code).
Proof.
  cbv zeta. set (bs := bytes_of_str (ascii_projection code)).
  pose proof (b64encode_transport_safe bs) as Hsafe.
  unfold b64encode, b64decode.
  rewrite !list_ascii_of_string_of_list_ascii.
  rewrite (forallb_transport_safe is_ascii_char _
             (fun c Hc => proj1 (proj2 (transport_safe_parts c Hc))) Hsafe).
  split; [apply (a2b_base64_b64encode bs 0%N [])|]. split.
  - intro Hin. rewrite forallb_forall in Hsafe.
    specialize (Hsafe _ Hin).
    destruct (transport_safe_parts _ Hsafe) as (Htext & _).
    discriminate Htext.
  - intro Hascii. unfold ascii_projection, str_filter.
    rewrite forallb_filter_id by exact Hascii.
    apply string_of_list_ascii_of_string.
Qed.

(** X10: the encoding of [n] bytes has four characters for every three
    bytes, the last group padded. *)
Theorem b64encode_length (bs : list byte) :
  String.length (b64encode bs) = 4 * ((List.length bs + 2) / 3).
Proof.
  unfold b64encode.
  assert (Hlen : forall cs, String.length (string_of_list_ascii cs) = List.length cs).
  { induction cs as [|c cs IH]; cbn; [reflexivity | rewrite IH; reflexivity]. }
  rewrite Hlen.
  induction bs as [|a|a b|a b c rest IH] using list_ind3; try reflexivity.
  cbn [b64encode_chars List.length]. rewrite IH.
  replace (S (S (S (List.length rest))) + 2)
    with ((List.length rest + 2) + 1 * 3) by lia.
  rewrite Nat.div_add by lia. lia.
Qed.

Lemma firstn_b64encode_chars (k : nat) :
  forall bs, 3 * k <= List.length bs ->
    firstn (4 * k) (b64encode_chars bs) = b64encode_chars (firstn (3 * k) bs).
Proof.
  induction k as [|k IH]; intros bs Hlen; [reflexivity|].
  destruct bs as [|a [|b [|c rest]]]; cbn in Hlen; try lia.
  replace (4 * S k) with (S (S (S (S (4 * k))))) by lia.
  replace (3 * S k) with (S (S (S (3 * k)))) by lia.
  cbn [firstn b64encode_chars]. rewrite IH by lia. reflexivity.
Qed.

(** X11: a retrieved text that was cut after a multiple of four
    characters decodes without any error, to the file cut after the
    corresponding multiple of three bytes. *)
Theorem decode_artifact_cut_at_group (bs : list byte) (k : nat) :
  3 * k <= List.length bs ->
  decode_artifact (string_of_list_ascii (firstn (4 * k) (b64encode_chars bs)))
  = Ret (firstn (3 * k) bs).
Proof.
  intro Hlen. rewrite firstn_b64encode_chars by exact Hlen.
  apply decode_artifact_kept_characters.
  rewrite list_ascii_of_string_of_list_ascii.
  apply filter_b64encode_chars.
Qed.

Lemma decode_artifact_cut_at_group_witness :
  decode_artifact (string_of_list_ascii
                     (firstn (4 * 1) (b64encode_chars [x01; x02; x03; x04])))
  = Ret [x01; x02; x03].
Proof.
  apply (decode_artifact_cut_at_group [x01; x02; x03; x04] 1). cbn. lia.
Defined.

Lemma forallb_removelast {A} (p : A -> bool) (l : list A) :
  forallb p l = true -> forallb p (removelast l) = true.
Proof.
  induction l as [|a l IH]; [reflexivity|]. intro H.
  cbn in H. apply andb_prop in H. destruct H as [Ha Hl].
  destruct l as [|b l]; [reflexivity|].
  cbn [removelast forallb]. rewrite Ha. cbn [andb]. apply IH. exact Hl.
Qed.

Lemma b64encode_chars_nonempty (bs : list byte) :
  bs <> [] -> b64encode_chars bs <> [].
Proof. destruct bs as [|a [|b [|c rest]]]; cbn; congruence. Qed.

Lemma a2b_base64_last_char_lost (bs : list byte) :
  bs <> [] ->
  forall leftchar out,
    a2b_base64 (removelast (b64encode_chars bs)) 0 leftchar 0 out
    = Raise (BinasciiError "Incorrect padding").
Proof.
  induction bs as [|a|a b|a b c rest IH] using list_ind3;
    intros Hne leftchar out; [congruence| | |].
  - destruct (group_arithmetic a a)
      as (((Hhi & _ & _ & _ & Hmid & _) & _) & _).
    cbn [b64encode_chars removelast].
    rewrite a2b_base64_first by exact Hhi.
    rewrite a2b_base64_second by exact Hmid. reflexivity.
  - destruct (group_arithmetic a b) as (((Hhi & Hmid & _) & _) & _).
    destruct (group_arithmetic b b)
      as (((_ & _ & _ & _ & _ & Hlow) & _) & _).
    cbn [b64encode_chars removelast].
    rewrite a2b_base64_first by exact Hhi.
    rewrite a2b_base64_second by exact Hmid.
    rewrite a2b_base64_third by exact Hlow. reflexivity.
  - destruct (group_arithmetic a b) as (((Hhi & Hmid & _) & _) & _).
    destruct (group_arithmetic b c)
      as (((_ & _ & Hlow & Hlast & _) & _) & _).
    cbn [b64encode_chars].
    destruct rest as [|d rest'].
    + cbn [b64encode_chars removelast].
      rewrite a2b_base64_first by exact Hhi.
      rewrite a2b_base64_second by exact Hmid.
      rewrite a2b_base64_third by exact Hlow. reflexivity.
    + assert (Hrest : b64encode_chars (d :: rest') <> [])
        by (apply b64encode_chars_nonempty; congruence).
      destruct (b64encode_chars (d :: rest')) as [|e enc] eqn:Eenc;
        [congruence|].
      cbn [removelast].
      rewrite a2b_base64_first by exact Hhi.
      rewrite a2b_base64_second by exact Hmid.
      rewrite a2b_base64_third by exact Hlow.
      rewrite a2b_base64_fourth by exact Hlast.
      apply IH. congruence.
Qed.

(** X12: a retrieved text that lost its last character is not decoded:
    the decoding raises the padding error. *)
Theorem decode_artifact_last_char_lost (bs : list byte) :
  bs <> [] ->
  decode_artifact (string_of_list_ascii (removelast (b64encode_chars bs)))
  = Raise (BinasciiError "Incorrect padding").
Proof.
  intro Hne.
  rewrite decode_artifact_safe_text
    by (apply forallb_removelast, b64encode_transport_safe).
  apply a2b_base64_last_char_lost. exact Hne.
Qed.

Lemma decode_artifact_last_char_lost_witness :
  decode_artifact (string_of_list_ascii
                     (removelast (b64encode_chars [x01; x02; x03; x04])))
  = Raise (BinasciiError "Incorrect padding").
Proof.
  apply decode_artifact_last_char_lost. discriminate.
Defined.

(** ** Video pipeline: order of the calls, failures, transport *)

Section VideoPipelineEffects.

Variable json_loads : string -> outcome value.
Variable render : string -> list (string * value) -> string.
Variable C : collaborators.

Lemma process_exec_answer l cmd answer w :
  log w = l ->
  sandbox_exec C l cmd = Ret answer ->
  process_exec C cmd w = (Ret answer, record (ESandboxExec cmd) w).
Proof. intros <- H. unfold process_exec. rewrite H. reflexivity. Qed.

Lemma take_length n s : String.length (take n s) <= n.
Proof.
  unfold take.
  assert (H : forall m t, m <= String.length t ->
                          String.length (String.substring 0 m t) = m).
  { induction m as [|m IH]; intros [|c t] Hm; cbn in *; try lia.
    rewrite IH by lia. reflexivity. }
  rewrite H by lia. lia.
Qed.

Lemma append_length (s t : string) :
  String.length (s ++ t) = String.length s + String.length t.
Proof. induction s as [|c s IH]; cbn; [reflexivity | rewrite IH; reflexivity]. Qed.

(** X13: when the search for the output file prints nothing but white
    space, the stage raises after the four commands, without reading a
    file back; the message carries at most 200 characters of the
    verification output and 1000 of the render output, 1240 characters in
    all. *)
Theorem execute_manim_code_not_found code w wr v r f :
  sandbox_create C (log w) snapshot_name = Ret tt ->
  answers_from C (log w ++ [ESandboxCreate snapshot_name])
    [write_command (b64encode (bytes_of_str (ascii_projection code)));
     verify_command; render_command; find_command]
    [wr; v; r; f] ->
  strip f = EmptyString ->
  exists msg w',
    execute_manim_code C code w = (Raise (Exception msg), w')
    /\ msg = ("Video not found. Code verify: " ++ take 200 v
              ++ ". Render: " ++ take 1000 r)%string
    /\ String.length msg <= 1240
    /\ log w' = log w
                ++ [ESandboxCreate snapshot_name;
                    ESandboxExec (write_command
                       (b64encode (bytes_of_str (ascii_projection code))));
                    ESandboxExec verify_command;
                    ESandboxExec render_command;
                    ESandboxExec find_command].
Proof.
  intros Hc (Hwr & Hv & Hr & Hf & _) Hblank.
  eexists _, _. split; [|split; [reflexivity|split]].
  - unfold execute_manim_code.
    erewrite bind_run
      by (unfold daytona_create; fold snapshot_name; rewrite Hc; reflexivity).
    erewrite bind_run by (eapply process_exec_answer; [reflexivity|exact Hwr]).
    erewrite bind_run by (eapply process_exec_answer; [reflexivity|exact Hv]).
    erewrite bind_run by (eapply process_exec_answer; [reflexivity|exact Hr]).
    erewrite bind_run by (eapply process_exec_answer; [reflexivity|exact Hf]).
    rewrite Hblank. cbn [String.eqb]. unfold raise. reflexivity.
  - rewrite !append_length.
    pose proof (take_length 200 v). pose proof (take_length 1000 r).
    cbn. lia.
  - cbn [log record]. rewrite <- !app_assoc. reflexivity.
Qed.

(** The sandbox side composed with the orchestrator side. *)
Lemma transport_round_trip (bs : list byte) :
  decode_artifact (textSafeEncode bs) = Ret bs.
Proof.
  apply decode_artifact_kept_characters.
  unfold textSafeEncode, base64_tool.
  rewrite (tr_d_newline_wrap_lines 76 _ (b64encode_transport_safe bs)).
  rewrite list_ascii_of_string_of_list_ascii.
  apply filter_b64encode_chars.
Qed.

(** X14: when the sandbox answers the five commands, the last one with
    the text-safe encoding of the file at the path it found, and the
    deletion goes through, the stage returns exactly the file's bytes and
    the render output, and the sandbox has seen creation, the five
    commands in order, and the deletion. *)
Theorem execute_manim_code_retrieves code w wr v r f bs :
  let program := write_command (b64encode (bytes_of_str (ascii_projection code))) in
  let commands := [program; verify_command; render_command; find_command;
                   cat_command (strip f)] in
  sandbox_create C (log w) snapshot_name = Ret tt ->
  answers_from C (log w ++ [ESandboxCreate snapshot_name]) commands
               [wr; v; r; f; textSafeEncode bs] ->
  strip f <> EmptyString ->
  sandbox_delete C (log w ++ ESandboxCreate snapshot_name
                          :: map ESandboxExec commands) = Ret tt ->
  exists w',
    execute_manim_code C code w = (Ret (bs, r), w')
    /\ log w' = log w ++ ESandboxCreate snapshot_name
                   :: map ESandboxExec commands ++ [ESandboxDelete].
Proof.
  intros program commands Hc (Hwr & Hv & Hr & Hf & Hcat & _) Hfound Hdel.
  subst program commands.
  eexists. split.
  - unfold execute_manim_code.
    erewrite bind_run
      by (unfold daytona_create; fold snapshot_name; rewrite Hc; reflexivity).
    erewrite bind_run by (eapply process_exec_answer; [reflexivity|exact Hwr]).
    erewrite bind_run by (eapply process_exec_answer; [reflexivity|exact Hv]).
    erewrite bind_run by (eapply process_exec_answer; [reflexivity|exact Hr]).
    erewrite bind_run by (eapply process_exec_answer; [reflexivity|exact Hf]).
    apply String.eqb_neq in Hfound. rewrite Hfound.
    erewrite bind_run by (eapply process_exec_answer; [reflexivity|exact Hcat]).
    erewrite bind_run by (unfold lift; rewrite transport_round_trip; reflexivity).
    erewrite bind_run.
    + reflexivity.
    + unfold sandbox_delete_call. cbn [log record].
      rewrite <- !app_assoc. cbn [app map] in *. rewrite Hdel. reflexivity.
  - cbn [log record map]. rewrite <- !app_assoc. reflexivity.
Qed.

Lemma generate_explanation_effects question w o w' :
  generate_explanation json_loads render C question w = (o, w') ->
  exists content, w' = record (ECompletion haiku 1024 content) w.
Proof.
  unfold generate_explanation, bind, completion, lift. intro H.
  destruct (messages_create C (log w) haiku 1024 _) as [text|e];
    [destruct (json_loads (strip_fences text)) as [result|e]|];
    inversion H; subst; eexists; reflexivity.
Qed.

Lemma generate_manim_code_effects question explanation w o w' :
  generate_manim_code render C question explanation w = (o, w') ->
  exists content, w' = record (ECompletion sonnet 2048 content) w.
Proof.
  unfold generate_manim_code, bind, completion, ret. intro H.
  destruct (messages_create C (log w) sonnet 2048 _) as [text|e];
    inversion H; subst; eexists; reflexivity.
Qed.

Lemma execute_manim_code_events code w o w' :
  execute_manim_code C code w = (o, w') ->
  exists sb,
    log w' = log w ++ ESandboxCreate snapshot_name :: sb
    /\ Forall (fun e => is_sandbox_event e = true) sb
    /\ (forall a, o = Ret a -> exists sb', sb = sb' ++ [ESandboxDelete]).
Proof.
  unfold execute_manim_code, bind, daytona_create, process_exec,
    sandbox_delete_call, lift, raise, ret.
  intro H.
  repeat match type of H with
  | context [match ?x with _ => _ end] =>
      let E := fresh "E" in destruct x eqn:E
  | context [if ?b then _ else _] =>
      let E := fresh "E" in destruct b eqn:E
  end;
  inversion H; subst; clear H; cbn [log record];
  rewrite <- ?app_assoc; cbn [app];
  (eexists; split; [reflexivity|]; split;
   [repeat (apply Forall_cons; [reflexivity|]); apply Forall_nil
   | intros ? Ha; try discriminate Ha]).
  eexists [_; _; _; _; _]. reflexivity.
Qed.

Lemma upload_to_supabase_events data id w o w' :
  upload_to_supabase C data id w = (o, w') ->
  exists st, log w' = log w ++ st
             /\ Forall (fun e => is_storage_event e = true) st.
Proof.
  unfold upload_to_supabase, bind, storage_upload_call, get_public_url, ret.
  intro H.
  destruct (storage_upload C (log w) _ data) as [[]|e];
    inversion H; subst; clear H; cbn [log record with_videos];
    rewrite <- ?app_assoc; cbn [app];
    (eexists; split; [reflexivity | repeat constructor]).
Qed.

(** X15: the calls of a pipeline run come in stage order: the identifier
    draw, then the completion calls, then the sandbox calls, then the
    storage calls.  The sandbox is touched only after both completion
    calls were made, starting with its creation, and storage only after
    the sandbox was deleted. *)
Theorem generate_video_call_order question w :
  exists r w' cs sb st,
    generate_video json_loads render C question w = (Ret r, w')
    /\ log w' = log w ++ EUuid4 (video_id r) :: cs ++ sb ++ st
    /\ Forall (fun e => is_completion e = true) cs
    /\ Forall (fun e => is_sandbox_event e = true) sb
    /\ Forall (fun e => is_storage_event e = true) st
    /\ (sb = []
        \/ (List.length cs = 2
            /\ exists tail, sb = ESandboxCreate snapshot_name :: tail))
    /\ (st = [] \/ exists sb', sb = sb' ++ [ESandboxDelete]).
Proof.
  set (id := uuid4 C (log w)).
  destruct (stages_total json_loads render C question id (record (EUuid4 id) w))
    as (o & w' & Hst).
  pose proof (generate_video_by_stages json_loads render C question w o w' Hst)
    as Hrun.
  fold id in Hrun.
  inversion Hst as [e w1 H1 | ex e w1 w2 H1 H2 | ex code e w1 w2 w3 H1 H2 H3
                    | ex code art e w1 w2 w3 w4 H1 H2 H3 H4
                    | ex code art url w1 w2 w3 w4 H1 H2 H3 H4]; subst o;
    destruct (generate_explanation_effects _ _ _ _ H1) as (c1 & Hw1);
    try destruct (generate_manim_code_effects _ _ _ _ _ H2) as (c2 & Hw2);
    try destruct (execute_manim_code_events _ _ _ _ H3) as (sb & Hw3 & Hsb & Hdel);
    try destruct (upload_to_supabase_events _ _ _ _ _ H4) as (st & Hw4 & Hstf).
  - exists (failed id e), w', [ECompletion haiku 1024 c1], [], [].
    split; [exact Hrun|]. split.
    { rewrite Hw1. cbn [log record video_id failed].
      rewrite <- ?app_assoc. reflexivity. }
    repeat split; auto.
  - exists (failed id e), w',
      [ECompletion haiku 1024 c1; ECompletion sonnet 2048 c2], [], [].
    split; [exact Hrun|]. split.
    { rewrite Hw2, Hw1. cbn [log record video_id failed].
      rewrite <- ?app_assoc. reflexivity. }
    repeat split; auto.
  - exists (failed id e), w',
      [ECompletion haiku 1024 c1; ECompletion sonnet 2048 c2],
      (ESandboxCreate snapshot_name :: sb), [].
    split; [exact Hrun|]. split.
    { rewrite Hw3, Hw2, Hw1. cbn [log record video_id failed].
      rewrite <- ?app_assoc, app_nil_r. reflexivity. }
    repeat split; auto. right. split; [reflexivity|]. exists sb. reflexivity.
  - exists (failed id e), w',
      [ECompletion haiku 1024 c1; ECompletion sonnet 2048 c2],
      (ESandboxCreate snapshot_name :: sb), st.
    split; [exact Hrun|]. split.
    { rewrite Hw4, Hw3, Hw2, Hw1. cbn [log record video_id failed].
      rewrite <- ?app_assoc. reflexivity. }
    repeat split; auto.
    + right. split; [reflexivity|]. exists sb. reflexivity.
    + right. destruct (Hdel art eq_refl) as (sb' & ->).
      exists (ESandboxCreate snapshot_name :: sb'). reflexivity.
  - exists (completed id url), w',
      [ECompletion haiku 1024 c1; ECompletion sonnet 2048 c2],
      (ESandboxCreate snapshot_name :: sb), st.
    split; [exact Hrun|]. split.
    { rewrite Hw4, Hw3, Hw2, Hw1. cbn [log record video_id completed].
      rewrite <- ?app_assoc. reflexivity. }
    repeat split; auto.
    + right. split; [reflexivity|]. exists sb. reflexivity.
    + right. destruct (Hdel art eq_refl) as (sb' & ->).
      exists (ESandboxCreate snapshot_name :: sb'). reflexivity.
Qed.

(** X16: a video for a question id that is not stored exactly once is
    refused before the pipeline starts: no identifier is drawn and no
    collaborator is called. *)
Theorem generate_video_for_question_unknown session_id question_id w :
  List.length (filter (fun r => String.eqb (q_id r) question_id) (questions w)) <> 1 ->
  generate_video_for_question json_loads render C session_id question_id w
  = (Raise (APIError "JSON object requested, multiple (or no) rows returned"), w).
Proof.
  intro Hlen. unfold generate_video_for_question, bind, select_question, single.
  destruct (filter _ (questions w)) as [|q [|q' rest]]; cbn in *;
    try reflexivity. lia.
Qed.

(** X17: for a stored question the operation always returns a result,
    the one [generate_video] gives for the stored question text; a
    failing pipeline shows as a failed result, not as an exception. *)
Theorem generate_video_for_question_returns session_id question_id w q :
  filter (fun r => String.eqb (q_id r) question_id) (questions w) = [q] ->
  exists r w',
    generate_video_for_question json_loads render C session_id question_id w
    = (Ret r, w')
    /\ generate_video json_loads render C (q_question q) w = (Ret r, w')
    /\ (status r = "completed" \/ status r = "failed").
Proof.
  intro Hrows.
  destruct (stages_total json_loads render C (q_question q) (uuid4 C (log w))
                         (record (EUuid4 (uuid4 C (log w))) w))
    as (o & w' & Hst).
  pose proof (generate_video_by_stages json_loads render C _ w o w' Hst) as Hrun.
  eexists _, w'. split; [|split; [exact Hrun|]].
  - unfold generate_video_for_question.
    erewrite bind_run
      by (unfold select_question; rewrite Hrows; reflexivity).
    erewrite bind_run by exact Hrun. reflexivity.
  - destruct o; [left | right]; reflexivity.
Qed.

(** X18: [generate_hint] raises only what the completion call raises.
    Whatever text comes back, it returns a hint: the one of the object the
    text parses to, when that is an object with a hint, and the default
    hint in every other case. *)
Theorem generate_hint_falls_back question answer w :
  let content := render "generate_hint.j2"
                   [("question", question); ("user_answer", VStr answer)] in
  let w1 := record (ECompletion haiku 512 content) w in
  match messages_create C (log w) haiku 512 content with
  | Raise e =>
      generate_hint json_loads render C question answer w = (Raise e, w1)
  | Ret text =>
      exists hint,
        generate_hint json_loads render C question answer w = (Ret hint, w1)
        /\ match json_loads (strip_fences text) with
           | Ret (VDict entries) =>
               match assoc "hint" entries with
               | Some h => hint = h
               | None => hint = VStr default_hint
               end
           | _ => hint = VStr default_hint
           end
  end.
Proof.
  cbv zeta. unfold generate_hint, bind, completion, ret.
  destruct (messages_create C (log w) haiku 512 _) as [text|e];
    [|reflexivity].
  eexists. split; [reflexivity|].
  unfold parse_hint.
  destruct (json_loads (strip_fences text)) as [[| | | | | |entries]|e];
    try reflexivity.
  cbn. destruct (assoc "hint" entries); reflexivity.
Qed.

End VideoPipelineEffects.

Lemma execute_manim_code_not_found_witness :
  exists w',
    execute_manim_code no_output "from manim import *" empty_world
    = (Raise (Exception
        "Video not found. Code verify: 12 scene.py. Render: ModuleNotFoundError: No module named 'numpy'"),
       w')
    /\ List.length (log w') = 5.
Proof.
  destruct (execute_manim_code_not_found no_output "from manim import *"
              empty_world EmptyString "12 scene.py"
              "ModuleNotFoundError: No module named 'numpy'"
              (String nl EmptyString))
    as (msg & w' & Hrun & Hmsg & _ & Hlog).
  - reflexivity.
  - cbn. repeat split; reflexivity.
  - reflexivity.
  - exists w'. split.
    + rewrite Hrun, Hmsg. reflexivity.
    + rewrite Hlog. reflexivity.
Defined.

Lemma execute_manim_code_retrieves_witness :
  exists w',
    execute_manim_code rendered "from manim import *" empty_world
    = (Ret ([x01; x02; x03; x04], "File ready"), w')
    /\ List.length (log w') = 7.
Proof.
  destruct (execute_manim_code_retrieves rendered "from manim import *"
              empty_world EmptyString "2 scene.py" "File ready"
              "media/videos/scene/480p15/ExplanationScene.mp4"
              [x01; x02; x03; x04])
    as (w' & Hrun & Hlog).
  - reflexivity.
  - cbn. repeat split; reflexivity.
  - discriminate.
  - reflexivity.
  - exists w'. split; [exact Hrun|]. rewrite Hlog. reflexivity.
Defined.

Lemma generate_video_for_question_unknown_witness :
  generate_video_for_question json_decode show_template rendered
                              "s1" "missing" (attempted 3)
  = (Raise (APIError "JSON object requested, multiple (or no) rows returned"),
     attempted 3).
Proof.
  apply generate_video_for_question_unknown. cbn. lia.
Defined.

Lemma generate_video_for_question_returns_witness :
  exists r w',
    generate_video_for_question json_decode show_template no_completion
                                "s1" "c" (attempted 3) = (Ret r, w')
    /\ (status r = "completed" \/ status r = "failed").
Proof.
  destruct (generate_video_for_question_returns json_decode show_template
              no_completion "s1" "c" (attempted 3)
              (question "s1" "c" "What is 84 / 4?" 3 1) eq_refl)
    as (r & w' & Hrun & _ & Hstatus).
  exists r, w'. split; assumption.
Defined.

(** ** Retention sweep: edge cases and what it keeps *)

Lemma cleanup_old_videos_run (C : collaborators) (w : world) :
  let cutoff := (utcnow C (log w) - one_day_us)%Z in
  let old := filter (fun v => (v_created_at v <? cutoff)%Z) (videos w) in
  cleanup_old_videos C w
  = (Ret {| deleted := List.length old; files := map v_name old |},
     match old with
     | [] => record EStorageList w
     | _ :: _ =>
         with_videos
           (filter (fun v => negb (existsb (String.eqb (v_name v))
                                           (map v_name old))) (videos w))
           (record (EStorageRemove (map v_name old)) (record EStorageList w))
     end).
Proof.
  intros cutoff old.
  unfold cleanup_old_videos, bind, now, storage_list, ret. cbn.
  fold cutoff. fold old.
  destruct old as [|v0 old']; cbn [map]; [reflexivity|].
  unfold storage_remove. cbn. rewrite length_map. reflexivity.
Qed.

(** X19: when no stored video is older than a day (an empty bucket
    included) the sweep reports nothing deleted, makes no [remove] call,
    and leaves the bucket as it is. *)
Theorem cleanup_old_videos_nothing_old (C : collaborators) (w : world) :
  (forall v, In v (videos w) ->
             (utcnow C (log w) - one_day_us <= v_created_at v)%Z) ->
  cleanup_old_videos C w
  = (Ret {| deleted := 0; files := [] |}, record EStorageList w).
Proof.
  intro Hyoung. rewrite cleanup_old_videos_run. cbv zeta.
  assert (Hnone : filter (fun v => (v_created_at v <? utcnow C (log w) - one_day_us)%Z)
                         (videos w) = []).
  { induction (videos w) as [|v vs IH]; [reflexivity|]. cbn.
    destruct (Z.ltb_spec (v_created_at v) (utcnow C (log w) - one_day_us)) as [Hlt|_].
    - specialize (Hyoung v (or_introl eq_refl)). lia.
    - apply IH. intros v' Hin. apply Hyoung. right. exact Hin. }
  rewrite Hnone. reflexivity.
Qed.

Lemma cleanup_old_videos_nothing_old_witness :
  cleanup_old_videos at_noon recent_videos
  = (Ret {| deleted := 0; files := [] |}, record EStorageList recent_videos)
  /\ videos (record EStorageList recent_videos) = videos recent_videos
  /\ List.length (videos recent_videos) = 3.
Proof.
  split; [|split; reflexivity].
  apply cleanup_old_videos_nothing_old.
  intros v [<-|[<-|[<-|[]]]]; vm_compute; discriminate.
Defined.

Lemma names_unique_after_filter (keep : stored_video -> bool)
      (vs : list stored_video) :
  NoDup (map v_name vs) -> NoDup (map v_name (filter keep vs)).
Proof.
  induction vs as [|v vs IH]; cbn; intro H; [constructor|].
  inversion H as [|? ? Hnotin Hnd]; subst.
  destruct (keep v); [|apply IH; exact Hnd].
  cbn. constructor; [|apply IH; exact Hnd].
  intro Hin. apply Hnotin. apply in_map_iff in Hin.
  destruct Hin as (x & Hx & Hin). apply filter_In in Hin.
  apply in_map_iff. exists x. split; [exact Hx | apply Hin].
Qed.

(** X20: on a bucket with unique object names the sweep keeps the names
    unique, and every object is accounted for: the objects left and the
    objects reported deleted add up to the objects there were. *)
Theorem cleanup_old_videos_accounts_for_all (C : collaborators) (w : world) :
  NoDup (map v_name (videos w)) ->
  exists r w',
    cleanup_old_videos C w = (Ret r, w')
    /\ NoDup (map v_name (videos w'))
    /\ List.length (videos w') + deleted r = List.length (videos w)
    /\ deleted r = List.length (files r)
    /\ forall name, In name (files r) -> ~ In name (map v_name (videos w')).
Proof.
  intro Hnd. eexists _, _. split; [apply cleanup_old_videos_run|].
  cbv zeta. set (cutoff := (utcnow C (log w) - one_day_us)%Z).
  set (is_old := fun v => (v_created_at v <? cutoff)%Z).
  pose proof (remove_selected is_old (videos w) Hnd) as Hrm.
  assert (Hleft :
    videos (match filter is_old (videos w) with
            | [] => record EStorageList w
            | _ :: _ =>
                with_videos
                  (filter (fun v => negb (existsb (String.eqb (v_name v))
                             (map v_name (filter is_old (videos w))))) (videos w))
                  (record (EStorageRemove (map v_name (filter is_old (videos w))))
                          (record EStorageList w))
            end)
    = filter (fun v => negb (is_old v)) (videos w)).
  { destruct (filter is_old (videos w)) eqn:E; cbn [videos with_videos record].
    - rewrite <- Hrm. cbn. symmetry. apply forallb_filter_id.
      apply forallb_forall. reflexivity.
    - exact Hrm. }
  rewrite Hleft. cbn [deleted files].
  split; [apply names_unique_after_filter; exact Hnd|]. split.
  - rewrite Nat.add_comm. apply filter_length.
  - split; [symmetry; apply length_map|].
    intros name Hin Hleft'.
    apply in_map_iff in Hin. destruct Hin as (v & Hv & Hin).
    apply in_map_iff in Hleft'. destruct Hleft' as (v' & Hv' & Hin').
    apply filter_In in Hin, Hin'.
    destruct Hin as (Hin & Hold), Hin' as (Hin' & Hyoung).
    assert (v' = v) as ->.
    { apply (NoDup_map_inj v_name (videos w)); [assumption .. | congruence]. }
    rewrite Hold in Hyoung. discriminate Hyoung.
Qed.

Lemma cleanup_old_videos_accounts_for_all_witness :
  exists r w',
    cleanup_old_videos at_noon three_videos = (Ret r, w')
    /\ List.length (videos w') + deleted r = 3.
Proof.
  destruct (cleanup_old_videos_accounts_for_all at_noon three_videos)
    as (r & w' & Hrun & _ & Hcount & _).
  - cbn. repeat constructor; cbn; intuition discriminate.
  - exists r, w'. split; [exact Hrun | exact Hcount].
Defined.

(** ** Fence stripping *)

Lemma chars_append (s t : string) :
  list_ascii_of_string (s ++ t)
  = list_ascii_of_string s ++ list_ascii_of_string t.
Proof. induction s as [|c s IH]; cbn; [reflexivity | rewrite IH; reflexivity]. Qed.

Lemma string_of_chars_append (a b : list ascii) :
  string_of_list_ascii (a ++ b)
  = (string_of_list_ascii a ++ string_of_list_ascii b)%string.
Proof. induction a as [|c a IH]; cbn; [reflexivity | rewrite IH; reflexivity]. Qed.

Lemma startswith_append (p s : string) : startswith p (p ++ s) = true.
Proof.
  unfold startswith. induction p as [|c p IH]; cbn.
  - destruct s; reflexivity.
  - destruct (ascii_dec c c) as [_|Hne]; [exact IH | congruence].
Qed.

Lemma endswith_append (s p : string) : endswith p (s ++ p) = true.
Proof.
  unfold endswith. rewrite chars_append, rev_app_distr, string_of_chars_append.
  apply startswith_append.
Qed.

Lemma substring_whole (s : string) : String.substring 0 (String.length s) s = s.
Proof. induction s as [|c s IH]; cbn; [reflexivity | rewrite IH; reflexivity]. Qed.

Lemma substring_front (s t : string) :
  String.substring 0 (String.length s) (s ++ t) = s.
Proof.
  induction s as [|c s IH]; cbn.
  - destruct t; reflexivity.
  - rewrite IH. reflexivity.
Qed.

Lemma substring_back (p s : string) (m : nat) :
  String.substring (String.length p) m (p ++ s) = String.substring 0 m s.
Proof. induction p as [|c p IH]; cbn; [reflexivity | exact IH]. Qed.

Lemma drop_append (p s : string) : drop (String.length p) (p ++ s) = s.
Proof.
  unfold drop. rewrite append_length, substring_back.
  replace (String.length p + String.length s - String.length p)
    with (String.length s) by lia.
  apply substring_whole.
Qed.

Lemma drop_last_append (s p : string) :
  drop_last (String.length p) (s ++ p) = s.
Proof.
  unfold drop_last. rewrite append_length.
  replace (String.length s + String.length p - String.length p)
    with (String.length s) by lia.
  apply substring_front.
Qed.

Lemma lstrip_chars_head_ok (cs : list ascii) : head_ok (lstrip_chars cs) = true.
Proof.
  induction cs as [|c cs IH]; [reflexivity|]. cbn.
  destruct (is_space c) eqn:E; [exact IH|]. cbn. rewrite E. reflexivity.
Qed.

Lemma lstrip_chars_fixed (cs : list ascii) :
  head_ok cs = true -> lstrip_chars cs = cs.
Proof.
  destruct cs as [|c cs]; [reflexivity|]. cbn. intro H.
  apply negb_true_iff in H. rewrite H. reflexivity.
Qed.

Lemma lstrip_chars_suffix (cs : list ascii) :
  exists blanks, cs = blanks ++ lstrip_chars cs.
Proof.
  induction cs as [|c cs (blanks & IH)]; [exists []; reflexivity|]. cbn.
  destruct (is_space c).
  - exists (c :: blanks). cbn. rewrite <- IH. reflexivity.
  - exists []. reflexivity.
Qed.

Lemma rstrip_chars_prefix (cs : list ascii) :
  exists blanks, cs = rstrip_chars cs ++ blanks.
Proof.
  unfold rstrip_chars.
  destruct (lstrip_chars_suffix (rev cs)) as (blanks & H).
  exists (rev blanks). rewrite <- rev_app_distr, <- H. symmetry.
  apply rev_involutive.
Qed.

Lemma rstrip_chars_head_ok (cs : list ascii) :
  head_ok cs = true -> head_ok (rstrip_chars cs) = true.
Proof.
  intro H. destruct (rstrip_chars_prefix cs) as (blanks & Hcs).
  destruct (rstrip_chars cs) as [|c r]; [reflexivity|].
  rewrite Hcs in H. exact H.
Qed.

Lemma rstrip_chars_last_ok (cs : list ascii) :
  head_ok (rev (rstrip_chars cs)) = true.
Proof.
  unfold rstrip_chars. rewrite rev_involutive. apply lstrip_chars_head_ok.
Qed.

Lemma rstrip_chars_fixed (cs : list ascii) :
  head_ok (rev cs) = true -> rstrip_chars cs = cs.
Proof.
  intro H. unfold rstrip_chars. rewrite lstrip_chars_fixed by exact H.
  apply rev_involutive.
Qed.

Lemma strip_chars_ends (cs : list ascii) :
  head_ok (strip_chars cs) = true /\ head_ok (rev (strip_chars cs)) = true.
Proof.
  unfold strip_chars. split.
  - apply rstrip_chars_head_ok, lstrip_chars_head_ok.
  - apply rstrip_chars_last_ok.
Qed.

Lemma strip_chars_fixed (cs : list ascii) :
  head_ok cs = true -> head_ok (rev cs) = true -> strip_chars cs = cs.
Proof.
  intros Hh Hl. unfold strip_chars.
  rewrite lstrip_chars_fixed by exact Hh. apply rstrip_chars_fixed, Hl.
Qed.

(** [strip] is idempotent: a stripped text has no white space left at
    either end. *)
Lemma strip_idempotent (s : string) : strip (strip s) = strip s.
Proof.
  unfold strip. rewrite list_ascii_of_string_of_list_ascii.
  destruct (strip_chars_ends (list_ascii_of_string s)) as (Hh & Hl).
  rewrite (strip_chars_fixed _ Hh Hl). reflexivity.
Qed.

Lemma stripped_ends (p : string) :
  strip p = p ->
  head_ok (list_ascii_of_string p) = true
  /\ head_ok (rev (list_ascii_of_string p)) = true.
Proof.
  intro H. unfold strip in H.
  apply (f_equal list_ascii_of_string) in H.
  rewrite list_ascii_of_string_of_list_ascii in H.
  rewrite <- H. apply strip_chars_ends.
Qed.

Lemma strip_between_newlines (p : string) :
  strip p = p -> strip (newline ++ p ++ newline) = p.
Proof.
  intro H. destruct (stripped_ends p H) as (Hh & Hl).
  unfold strip. rewrite !chars_append. cbn [newline list_ascii_of_string app].
  set (cs := list_ascii_of_string p) in *.
  assert (Hcs : strip_chars (nl :: cs ++ [nl]) = cs).
  { unfold strip_chars. cbn [lstrip_chars].
    replace (is_space nl) with true by reflexivity.
    destruct cs as [|c cs'] eqn:E; [reflexivity|]. rewrite <- E in *.
    rewrite lstrip_chars_fixed by (rewrite E in *; exact Hh).
    unfold rstrip_chars. rewrite rev_app_distr. cbn [rev app lstrip_chars].
    replace (is_space nl) with true by reflexivity.
    rewrite lstrip_chars_fixed by exact Hl. apply rev_involutive. }
  rewrite Hcs. apply string_of_list_ascii_of_string.
Qed.

Lemma strip_fixed (s : string) :
  head_ok (list_ascii_of_string s) = true ->
  head_ok (rev (list_ascii_of_string s)) = true ->
  strip s = s.
Proof.
  intros Hh Hl. unfold strip. rewrite (strip_chars_fixed _ Hh Hl).
  apply string_of_list_ascii_of_string.
Qed.

Lemma append_assoc (a b c : string) : ((a ++ b) ++ c = a ++ (b ++ c))%string.
Proof. induction a as [|x a IH]; cbn; [reflexivity | rewrite IH; reflexivity]. Qed.

Lemma ends_with_fence_last_ok (s : string) :
  head_ok (rev (list_ascii_of_string (s ++ "```"))) = true.
Proof. rewrite chars_append, rev_app_distr. reflexivity. Qed.

Lemma drop_fence (s : string) : drop 3 ("```" ++ s) = s.
Proof. apply (drop_append "```" s). Qed.

Lemma drop_json_fence (s : string) : drop 7 ("```json" ++ s) = s.
Proof. apply (drop_append "```json" s). Qed.

Lemma drop_python_fence (s : string) : drop 9 ("```python" ++ s) = s.
Proof. apply (drop_append "```python" s). Qed.

Lemma drop_last_fence (s : string) : drop_last 3 (s ++ "```") = s.
Proof. apply (drop_last_append s "```"). Qed.

(** What is left of a fenced text once the opening fence is gone. *)
Lemma strip_fence_tail (p : string) :
  strip p = p ->
  let text := (newline ++ p ++ newline ++ "```")%string in
  startswith "```" text = false
  /\ endswith "```" text = true
  /\ strip (drop_last 3 text) = p.
Proof.
  intros Hp text. subst text. split; [reflexivity|].
  rewrite <- !append_assoc. split; [apply endswith_append|].
  rewrite drop_last_fence.
  rewrite append_assoc. apply strip_between_newlines, Hp.
Qed.

(** X21: a stripped payload between a [json] fence (or a bare fence) and
    a closing fence, each on its own line, comes out of [strip_fences]
    unchanged. *)
Theorem strip_fences_unwraps (p : string) :
  strip p = p ->
  strip_fences ("```json" ++ newline ++ p ++ newline ++ "```") = p
  /\ strip_fences ("```" ++ newline ++ p ++ newline ++ "```") = p.
Proof.
  intro Hp. destruct (strip_fence_tail p Hp) as (Hstart & Hend & Hstrip).
  split; unfold strip_fences.
  - rewrite (strip_fixed ("```json" ++ newline ++ p ++ newline ++ "```"));
      [| reflexivity
       | rewrite <- !append_assoc; apply ends_with_fence_last_ok].
    rewrite startswith_append. cbv iota.
    rewrite drop_json_fence.
    rewrite Hstart. cbv iota. rewrite Hend. exact Hstrip.
  - rewrite (strip_fixed ("```" ++ newline ++ p ++ newline ++ "```"));
      [| reflexivity
       | rewrite <- !append_assoc; apply ends_with_fence_last_ok].
    replace (startswith "```json" ("```" ++ newline ++ p ++ newline ++ "```"))
      with false by reflexivity.
    cbv iota. rewrite startswith_append. cbv iota.
    rewrite drop_fence, Hend. exact Hstrip.
Qed.

Lemma strip_fences_unwraps_witness :
  strip_fences ("```json" ++ newline ++ "{}" ++ newline ++ "```") = "{}".
Proof.
  apply (strip_fences_unwraps "{}"). reflexivity.
Defined.

(** X22: a stripped program between a [python] fence (or a bare fence)
    and a closing fence, each on its own line, comes out of the code
    generation's fence stripping unchanged. *)
Theorem strip_code_fences_unwraps (p : string) :
  strip p = p ->
  strip_code_fences ("```python" ++ newline ++ p ++ newline ++ "```") = p
  /\ strip_code_fences ("```" ++ newline ++ p ++ newline ++ "```") = p.
Proof.
  intro Hp. destruct (strip_fence_tail p Hp) as (Hstart & Hend & Hstrip).
  split; unfold strip_code_fences.
  - rewrite (strip_fixed ("```python" ++ newline ++ p ++ newline ++ "```"));
      [| reflexivity
       | rewrite <- !append_assoc; apply ends_with_fence_last_ok].
    rewrite startswith_append. cbv iota.
    rewrite drop_python_fence.
    rewrite Hstart. cbv iota. rewrite Hend. exact Hstrip.
  - rewrite (strip_fixed ("```" ++ newline ++ p ++ newline ++ "```"));
      [| reflexivity
       | rewrite <- !append_assoc; apply ends_with_fence_last_ok].
    replace (startswith "```python" ("```" ++ newline ++ p ++ newline ++ "```"))
      with false by reflexivity.
    cbv iota. rewrite startswith_append. cbv iota.
    rewrite drop_fence, Hend. exact Hstrip.
Qed.

Lemma strip_code_fences_unwraps_witness :
  strip_code_fences ("```python" ++ newline ++ "from manim import *"
                     ++ newline ++ "```")
  = "from manim import *".
Proof.
  apply (strip_code_fences_unwraps "from manim import *"). reflexivity.
Defined.

Lemma startswith_shorter (a b t : string) :
  startswith (a ++ b) t = true -> startswith a t = true.
Proof.
  unfold startswith. revert t.
  induction a as [|c a IH]; intros t H; cbn in *.
  - destruct t; reflexivity.
  - destruct t as [|d t]; [discriminate H|]. simpl in *.
    destruct (ascii_dec c d); [apply IH; exact H | discriminate H].
Qed.

Lemma json_fence_is_fence (t : string) :
  startswith "```" t = false -> startswith "```json" t = false.
Proof.
  intro H. destruct (startswith "```json" t) eqn:E; [|reflexivity].
  apply (startswith_shorter "```" "json" t) in E. congruence.
Qed.

(** X23: a text that, once stripped, neither starts nor ends with a
    fence goes through [strip_fences] with nothing but its surrounding
    white space removed. *)
Theorem strip_fences_without_fence (raw : string) :
  startswith "```" (strip raw) = false ->
  endswith "```" (strip raw) = false ->
  strip_fences raw = strip raw.
Proof.
  intros Hstart Hend. unfold strip_fences.
  rewrite (json_fence_is_fence _ Hstart), Hstart, Hend.
  apply strip_idempotent.
Qed.

Lemma strip_fences_without_fence_witness :
  strip_fences "  {} " = "{}".
Proof.
  apply (strip_fences_without_fence "  {} "); reflexivity.
Defined.

(** ** Webhook adapter *)

Section PrimaryEmail.

Variable py_eq : value -> value -> bool.

Lemma value_eq_str (v : value) (s : string) :
  value_eq py_eq v (VStr s) = true <-> v = VStr s.
Proof.
  destruct v; cbn; split; intro H; try discriminate H.
  - apply String.eqb_eq in H. congruence.
  - inversion H. apply String.eqb_refl.
Qed.

Lemma get_or_none_object (entries : list (string * value)) (key : string) :
  get_or_none (VDict entries) key = Ret (entry key entries).
Proof.
  unfold get_or_none, dict_get, entry.
  destruct (assoc key entries); reflexivity.
Qed.

Lemma find_primary_object (primary_email_id : value) entries (objs : list value) :
  find_primary py_eq primary_email_id (VDict entries :: objs)
  = if value_eq py_eq (entry "id" entries) primary_email_id
    then Ret (Some (entry "email_address" entries))
    else find_primary py_eq primary_email_id objs.
Proof.
  cbn [find_primary]. rewrite !get_or_none_object. reflexivity.
Qed.

Lemma find_primary_objects (primary_email_id : value) (objs : list value) :
  Forall is_object objs ->
  exists found,
    find_primary py_eq primary_email_id objs = Ret found
    /\ match found with
       | Some address =>
           exists entries, In (VDict entries) objs
                           /\ address = entry "email_address" entries
       | None => True
       end.
Proof.
  induction objs as [|obj objs IH]; intro Hobjs.
  - exists None. split; [reflexivity | exact I].
  - inversion Hobjs as [|? ? (entries & ->) Hrest]; subst.
    rewrite find_primary_object.
    destruct (value_eq py_eq _ primary_email_id).
    + exists (Some (entry "email_address" entries)). split; [reflexivity|].
      exists entries. split; [left; reflexivity | reflexivity].
    + destruct (IH Hrest) as (found & Hfound & Hspec).
      exists found. split; [exact Hfound|].
      destruct found as [address|]; [|exact I].
      destruct Hspec as (e & Hin & Haddr).
      exists e. split; [right; exact Hin | exact Haddr].
Qed.

Lemma first_email_objects entries (objs : list value) :
  first_email (VList (VDict entries :: objs))
  = Ret (entry "email_address" entries).
Proof. unfold first_email. cbn. apply get_or_none_object. Qed.

Lemma extract_from_list (d : list (string * value)) (objs : list value) :
  assoc "email_addresses" d = Some (VList objs) ->
  extract_primary_email py_eq (VDict d)
  = match objs with
    | [] => Ret VNone
    | _ :: _ =>
        if truthy (entry "primary_email_address_id" d)
        then match find_primary py_eq (entry "primary_email_address_id" d) objs with
             | Raise e => Raise e
             | Ret (Some address) => Ret address
             | Ret None => first_email (VList objs)
             end
        else first_email (VList objs)
    end.
Proof.
  intro He. unfold extract_primary_email.
  rewrite get_or_none_object. cbn [dict_get]. rewrite He.
  destruct objs; reflexivity.
Qed.

(** X24: user data without an [email_addresses] entry, or with an empty
    one, has no primary email, whatever the primary id says. *)
Theorem extract_primary_email_no_addresses (d : list (string * value)) :
  truthy (match assoc "email_addresses" d with
          | Some v => v
          | None => VList []
          end) = false ->
  extract_primary_email py_eq (VDict d) = Ret VNone.
Proof.
  intro H. unfold extract_primary_email.
  rewrite get_or_none_object. cbn [dict_get].
  destruct (assoc "email_addresses" d) as [v|]; rewrite H; reflexivity.
Qed.

(** X25: for user data whose email addresses are a list of objects the
    function does not raise, and what it returns is [None] for an empty
    list and otherwise the address entry ([None] if it has none) of one
    of the listed objects. *)
Theorem extract_primary_email_from_list (d : list (string * value))
        (objs : list value) :
  assoc "email_addresses" d = Some (VList objs) ->
  Forall is_object objs ->
  exists address,
    extract_primary_email py_eq (VDict d) = Ret address
    /\ match objs with
       | [] => address = VNone
       | _ :: _ =>
           exists entries, In (VDict entries) objs
                           /\ address = entry "email_address" entries
       end.
Proof.
  intros He Hobjs. rewrite (extract_from_list d objs He).
  destruct objs as [|obj objs']; [exists VNone; split; reflexivity|].
  assert (Hfirst : exists entries,
            first_email (VList (obj :: objs')) = Ret (entry "email_address" entries)
            /\ In (VDict entries) (obj :: objs')).
  { inversion Hobjs as [|? ? (entries & ->) _]; subst.
    exists entries. split; [apply first_email_objects | left; reflexivity]. }
  destruct Hfirst as (e0 & Hfirst & Hin0).
  destruct (truthy (entry "primary_email_address_id" d)).
  - destruct (find_primary_objects (entry "primary_email_address_id" d) _ Hobjs)
      as ([address|] & -> & Hspec).
    + exists address. split; [reflexivity | exact Hspec].
    + exists (entry "email_address" e0). split; [exact Hfirst|].
      exists e0. split; [exact Hin0 | reflexivity].
  - exists (entry "email_address" e0). split; [exact Hfirst|].
    exists e0. split; [exact Hin0 | reflexivity].
Qed.

Lemma find_primary_match (pid : string) (before after : list value) entries :
  Forall (fun obj => exists e, obj = VDict e /\ entry "id" e <> VStr pid) before ->
  entry "id" entries = VStr pid ->
  find_primary py_eq (VStr pid) (before ++ VDict entries :: after)
  = Ret (Some (entry "email_address" entries)).
Proof.
  intros Hbefore Hid.
  induction Hbefore as [|obj before (e & -> & Hne) _ IH]; cbn [app].
  - rewrite find_primary_object, Hid.
    rewrite (proj2 (value_eq_str (VStr pid) pid) eq_refl). reflexivity.
  - rewrite find_primary_object.
    destruct (value_eq py_eq (entry "id" e) (VStr pid)) eqn:E; [|exact IH].
    apply value_eq_str in E. contradiction.
Qed.

(** X26: when the primary id is a non-empty string and an object of the
    list carries it, the address returned is that of the first object
    that carries it, also when an earlier object has an address. *)
Theorem extract_primary_email_primary (d : list (string * value)) (pid : string)
        (before after : list value) entries :
  assoc "email_addresses" d = Some (VList (before ++ VDict entries :: after)) ->
  assoc "primary_email_address_id" d = Some (VStr pid) ->
  pid <> EmptyString ->
  Forall (fun obj => exists e, obj = VDict e /\ entry "id" e <> VStr pid) before ->
  entry "id" entries = VStr pid ->
  extract_primary_email py_eq (VDict d) = Ret (entry "email_address" entries).
Proof.
  intros He Hp Hpid Hbefore Hid.
  rewrite (extract_from_list d _ He).
  assert (Hentry : entry "primary_email_address_id" d = VStr pid)
    by (unfold entry; rewrite Hp; reflexivity).
  rewrite Hentry. cbn [truthy].
  apply String.eqb_neq in Hpid. rewrite Hpid. cbn [negb].
  rewrite (find_primary_match pid before after entries Hbefore Hid).
  destruct before; reflexivity.
Qed.

Lemma find_primary_no_match (pid : string) (objs : list value) :
  Forall (fun obj => exists e, obj = VDict e /\ entry "id" e <> VStr pid) objs ->
  find_primary py_eq (VStr pid) objs = Ret None.
Proof.
  intro H. induction H as [|obj objs (e & -> & Hne) _ IH]; [reflexivity|].
  rewrite find_primary_object.
  destruct (value_eq py_eq (entry "id" e) (VStr pid)) eqn:E; [|exact IH].
  apply value_eq_str in E. contradiction.
Qed.

(** X27: when the primary id is missing, [None] or empty, or is a string
    that no object of the list carries, the address returned is that of
    the first object of the list. *)
Theorem extract_primary_email_fallback (d : list (string * value))
        entries (rest : list value) :
  assoc "email_addresses" d = Some (VList (VDict entries :: rest)) ->
  truthy (entry "primary_email_address_id" d) = false
  \/ (exists pid,
        entry "primary_email_address_id" d = VStr pid
        /\ Forall (fun obj => exists e, obj = VDict e /\ entry "id" e <> VStr pid)
                  (VDict entries :: rest)) ->
  extract_primary_email py_eq (VDict d) = Ret (entry "email_address" entries).
Proof.
  intros He Hprimary. rewrite (extract_from_list d _ He).
  destruct Hprimary as [Hfalsy|(pid & Hpid & Hnone)].
  - rewrite Hfalsy. apply first_email_objects.
  - rewrite Hpid. rewrite (find_primary_no_match pid _ Hnone).
    destruct (truthy (VStr pid)); apply first_email_objects.
Qed.

End PrimaryEmail.

Lemma extract_primary_email_no_addresses_witness :
  extract_primary_email never_equal
    (VDict [("primary_email_address_id", VStr "idn_2")]) = Ret VNone.
Proof.
  apply extract_primary_email_no_addresses. reflexivity.
Defined.

Lemma extract_primary_email_from_list_witness :
  exists address,
    extract_primary_email never_equal (VDict (clerk_user (VInt 7))) = Ret address.
Proof.
  destruct (extract_primary_email_from_list never_equal (clerk_user (VInt 7))
              [VDict first_address; VDict second_address] eq_refl)
    as (address & Hrun & _).
  - repeat constructor; eexists; reflexivity.
  - exists address. exact Hrun.
Defined.

Lemma extract_primary_email_primary_witness :
  extract_primary_email never_equal (VDict (clerk_user (VStr "idn_2")))
  = Ret (VStr "new@example.com").
Proof.
  apply (extract_primary_email_primary never_equal (clerk_user (VStr "idn_2"))
           "idn_2" [VDict first_address] [] second_address).
  - reflexivity.
  - reflexivity.
  - discriminate.
  - repeat constructor. exists first_address. split; [reflexivity | discriminate].
  - reflexivity.
Defined.

Lemma extract_primary_email_fallback_witness :
  extract_primary_email never_equal (VDict (clerk_user (VStr "idn_9")))
  = Ret (VStr "old@example.com").
Proof.
  apply (extract_primary_email_fallback never_equal (clerk_user (VStr "idn_9"))
           first_address [VDict second_address]).
  - reflexivity.
  - right. exists "idn_9". split; [reflexivity|].
    repeat constructor; eexists; (split; [reflexivity | discriminate]).
Defined.

(** ** Chat turn *)

Section ChatResponse.

Variable create : string -> nat -> string -> list value -> outcome string.

Lemma claude_messages_filter (messages built : list value) :
  Forall (fun msg => exists role, subscript msg "role" = Ret role) messages ->
  claude_messages messages built = Ret (built ++ filter passed_on messages).
Proof.
  intro H. revert built.
  induction H as [|msg messages (role & Hrole) _ IH]; intro built; cbn.
  - rewrite app_nil_r. reflexivity.
  - unfold passed_on. rewrite Hrole.
    destruct (not_system role).
    + rewrite IH, <- app_assoc. reflexivity.
    + apply IH.
Qed.

(** X28: when every message has a role, what [chat_response] sends to
    the completion service is the history without its system messages:
    the other messages, all of them, in their order, and nothing else;
    the system prompt is the fixed one. *)
Theorem chat_response_sends_non_system (messages : list value) :
  Forall (fun msg => exists role, subscript msg "role" = Ret role) messages ->
  let sent := filter passed_on messages in
  chat_response create messages = create haiku 2048 system_msg sent
  /\ Forall (fun msg => subscript msg "role" <> Ret (VStr "system")) sent
  /\ (forall msg, In msg messages ->
                  subscript msg "role" <> Ret (VStr "system") -> In msg sent).
Proof.
  intros Hroles sent. split; [|split].
  - unfold chat_response. rewrite (claude_messages_filter _ [] Hroles). reflexivity.
  - apply Forall_forall. intros msg Hin. apply filter_In in Hin.
    destruct Hin as (_ & Hpassed). intro Hsys.
    unfold passed_on in Hpassed. rewrite Hsys in Hpassed. discriminate Hpassed.
  - intros msg Hin Hnot. apply filter_In. split; [exact Hin|].
    rewrite Forall_forall in Hroles. destruct (Hroles msg Hin) as (role & Hrole).
    unfold passed_on. rewrite Hrole.
    destruct role; try reflexivity. cbn.
    destruct (String.eqb_spec s "system") as [->|]; [contradiction | reflexivity].
Qed.

(** X29: a message without a role stops the turn: [chat_response] raises
    what the lookup raises, whatever the completion service would have
    answered. *)
Theorem chat_response_message_without_role (before after : list value)
        (msg : value) (e : exn) :
  Forall (fun m => exists role, subscript m "role" = Ret role) before ->
  subscript msg "role" = Raise e ->
  chat_response create (before ++ msg :: after) = Raise e.
Proof.
  intros Hbefore Hmsg. unfold chat_response.
  assert (H : forall built,
            claude_messages (before ++ msg :: after) built = Raise e).
  { induction Hbefore as [|m before (role & Hrole) _ IH]; intro built; cbn.
    - rewrite Hmsg. reflexivity.
    - rewrite Hrole. destruct (not_system role); apply IH. }
  rewrite H. reflexivity.
Qed.

End ChatResponse.

Lemma chat_response_sends_non_system_witness :
  chat_response echo_count
    [message "system" "Be brief."; message "user" "What is 84 / 4?";
     message "assistant" "21"; message "user" "Why?"]
  = Ret "3".
Proof.
  apply (chat_response_sends_non_system echo_count
           [message "system" "Be brief."; message "user" "What is 84 / 4?";
            message "assistant" "21"; message "user" "Why?"]).
  repeat constructor; eexists; reflexivity.
Defined.

Lemma chat_response_message_without_role_witness :
  chat_response echo_count
    [message "user" "What is 84 / 4?"; VDict [("content", VStr "21")]]
  = Raise (KeyError "role").
Proof.
  apply (chat_response_message_without_role echo_count
           [message "user" "What is 84 / 4?"] []).
  - repeat constructor. eexists. reflexivity.
  - reflexivity.
Defined.

(** ** Webhook verification *)

Section WebhookVerification.

Variable Verifier : Type.
Variable Webhook : string -> webhook_outcome Verifier.
Variable verify : Verifier -> list byte -> svix_headers -> webhook_outcome value.

(** X30: a payload comes back only when the three Svix headers are
    present and non-empty, the verifier could be built from the secret,
    and the verifier accepted the body under exactly these headers; the
    payload is the verifier's. *)
Theorem verify_webhook_signature_accepts_verified
        (headers : string -> option string) (body : list byte)
        (webhook_secret : string) (payload : value) :
  verify_webhook_signature Verifier Webhook verify headers body webhook_secret
  = Verified payload ->
  exists i t s wh,
    headers "svix-id" = Some i /\ headers "svix-timestamp" = Some t
    /\ headers "svix-signature" = Some s
    /\ i <> EmptyString /\ t <> EmptyString /\ s <> EmptyString
    /\ Webhook webhook_secret = Verified wh
    /\ verify wh body {| svix_id := i; svix_timestamp := t; svix_signature := s |}
       = Verified payload.
Proof.
  unfold verify_webhook_signature.
  destruct (headers "svix-id") as [i|]; [|intro H; discriminate H].
  destruct (headers "svix-timestamp") as [t|];
    [|cbn; rewrite orb_true_r; intro H; discriminate H].
  destruct (headers "svix-signature") as [s|];
    [|cbn; rewrite !orb_true_r; intro H; discriminate H].
  cbn [header_missing].
  destruct (String.eqb_spec i EmptyString) as [|Hi]; [intro H; discriminate H|].
  destruct (String.eqb_spec t EmptyString) as [|Ht]; [intro H; discriminate H|].
  destruct (String.eqb_spec s EmptyString) as [|Hs]; [intro H; discriminate H|].
  cbn [orb].
  destruct (Webhook webhook_secret) as [wh|e]; [|intro H; discriminate H].
  destruct (verify wh body _) as [p|[m|m|m|c m]] eqn:Ev; intro H;
    try discriminate H.
  inversion H; subst. exists i, t, s, wh. repeat split; assumption.
Qed.

End WebhookVerification.

Lemma verify_webhook_signature_accepts_verified_witness :
  let headers := fun name : string =>
    if String.eqb name "svix-id" then Some "msg_1"
    else if String.eqb name "svix-timestamp" then Some "1762257600"
    else if String.eqb name "svix-signature" then Some "v1,good"
    else None in
  let check := fun (_ : unit) (_ : list byte) (h : svix_headers) =>
    if String.eqb (svix_signature h) "v1,good"
    then Verified (VDict [("type", VStr "user.created")])
    else Refused (WebhookVerificationError "No matching signature found") in
  verify_webhook_signature unit (fun _ => Verified tt) check headers [] "whsec_x"
  = Verified (VDict [("type", VStr "user.created")])
  /\ exists s, headers "svix-signature" = Some s /\ s <> EmptyString.
Proof.
  intros headers check. split; [reflexivity|].
  destruct (verify_webhook_signature_accepts_verified unit
              (fun _ => Verified tt) check headers [] "whsec_x"
              (VDict [("type", VStr "user.created")]) eq_refl)
    as (i & t & s & wh & _ & _ & Hs & _ & _ & Hne & _).
  exists s. split; assumption.
Defined.
